(** * Ekos scheduler: execution core of [Ekos::Scheduler]

    A shallow embedding of the scheduling and execution core found in the
    scheduler source ([Scheduler::start], [iterate], [runSchedulerIteration],
    [selectActiveJob], [checkStatus], [checkJobStageEplogue], [getNextAction],
    [findNextJob], [setCaptureStatus] and the functions they call), together with
    the properties of the specification that concern it.

    The scheduler object and its module state are one record that is threaded
    through a state monad.  A dereference of a null or dangling job pointer has
    no result.  Widgets are only read (they hold settings); painting, debug
    printing through [TEST_PRINT], the dawn/dusk and altitude caches and the
    captured-frames map do not influence the control flow embedded here and are
    left out.  DBus commands, emitted signals, notifications and log lines are
    recorded, in order, in a trace. *)

From stdpp Require Import base tactics option list strings pretty.
From Stdlib Require Import ZArith Lia.

Local Open Scope Z_scope.

(** ** Enumerations

    The enumerations are declared in headers that are not among the sources.
    Their enumerators are the ones the scheduler names; where the scheduler
    compares enumerators with [<] or [<=], a rank records the declaration order
    the comparison relies on. *)

(** [SchedulerJobStatus]; the enumerators are listed in declaration order, which
    the code relies on in [getState() <= SCHEDJOB_BUSY] and
    [SCHEDJOB_ERROR <= getState()]. *)
Inductive SchedulerJobStatus : Type :=
  | SCHEDJOB_IDLE | SCHEDJOB_EVALUATION | SCHEDJOB_SCHEDULED | SCHEDJOB_BUSY
  | SCHEDJOB_ERROR | SCHEDJOB_ABORTED | SCHEDJOB_INVALID | SCHEDJOB_COMPLETE.

Definition status_rank (st : SchedulerJobStatus) : Z :=
  match st with
  | SCHEDJOB_IDLE => 0 | SCHEDJOB_EVALUATION => 1 | SCHEDJOB_SCHEDULED => 2
  | SCHEDJOB_BUSY => 3 | SCHEDJOB_ERROR => 4 | SCHEDJOB_ABORTED => 5
  | SCHEDJOB_INVALID => 6 | SCHEDJOB_COMPLETE => 7
  end.

Inductive SchedulerJobStage : Type :=
  | SCHEDSTAGE_IDLE | SCHEDSTAGE_SLEWING | SCHEDSTAGE_SLEW_COMPLETE
  | SCHEDSTAGE_FOCUSING | SCHEDSTAGE_FOCUS_COMPLETE
  | SCHEDSTAGE_ALIGNING | SCHEDSTAGE_ALIGN_COMPLETE
  | SCHEDSTAGE_RESLEWING | SCHEDSTAGE_RESLEWING_COMPLETE
  | SCHEDSTAGE_POSTALIGN_FOCUSING | SCHEDSTAGE_POSTALIGN_FOCUSING_COMPLETE
  | SCHEDSTAGE_GUIDING | SCHEDSTAGE_GUIDING_COMPLETE
  | SCHEDSTAGE_CAPTURING.

(** [CompletionCondition].  A C++ enumeration object can hold a value that names
    none of its enumerators; [FINISH_UNDEFINED] stands for any such value.  It is
    what the last branch of [findNextJob] is written for. *)
Inductive CompletionCondition : Type :=
  | FINISH_SEQUENCE | FINISH_REPEAT | FINISH_LOOP | FINISH_AT | FINISH_UNDEFINED.

Inductive SchedulerState : Type :=
  | SCHEDULER_IDLE | SCHEDULER_STARTUP | SCHEDULER_RUNNING | SCHEDULER_PAUSED
  | SCHEDULER_SHUTDOWN | SCHEDULER_ABORTED | SCHEDULER_LOADING.

Inductive SchedulerTimerState : Type :=
  | RUN_WAKEUP | RUN_SCHEDULER | RUN_JOBCHECK | RUN_SHUTDOWN | RUN_NOTHING.

(** [StartupState], in declaration order ([> STARTUP_SCRIPT], [< STARTUP_ERROR]). *)
Inductive StartupState : Type :=
  | STARTUP_IDLE | STARTUP_SCRIPT | STARTUP_UNPARK_DOME | STARTUP_UNPARK_MOUNT
  | STARTUP_UNPARK_CAP | STARTUP_ERROR | STARTUP_COMPLETE.

Definition startup_rank (st : StartupState) : Z :=
  match st with
  | STARTUP_IDLE => 0 | STARTUP_SCRIPT => 1 | STARTUP_UNPARK_DOME => 2
  | STARTUP_UNPARK_MOUNT => 3 | STARTUP_UNPARK_CAP => 4 | STARTUP_ERROR => 5
  | STARTUP_COMPLETE => 6
  end.

(** [ShutdownState]: the scheduler only tells idle, in progress, failed and done
    apart ([> SHUTDOWN_IDLE]). *)
Inductive ShutdownState : Type :=
  | SHUTDOWN_IDLE | SHUTDOWN_IN_PROGRESS | SHUTDOWN_ERROR | SHUTDOWN_COMPLETE.

Inductive ParkWaitState : Type := PARKWAIT_IDLE | PARKWAIT_PARK | PARKWAIT_OTHER.
Inductive EkosState : Type := EKOS_IDLE | EKOS_STOPPING | EKOS_OTHER.
Inductive INDIState : Type := INDI_IDLE | INDI_OTHER.

Inductive CaptureState : Type :=
  | CAPTURE_IDLE | CAPTURE_PROGRESS | CAPTURE_ABORTED | CAPTURE_COMPLETE
  | CAPTURE_IMAGE_RECEIVED | CAPTURE_OTHER.
Inductive AlignState : Type := ALIGN_IDLE | ALIGN_OTHER.
Inductive FocusState : Type := FOCUS_IDLE | FOCUS_WAITING | FOCUS_OTHER.
Inductive GuideState : Type :=
  | GUIDE_IDLE | GUIDE_ABORTED | GUIDE_CONNECTED | GUIDE_DISCONNECTED
  | GUIDE_GUIDING | GUIDE_CALIBRATION_ERROR | GUIDE_DITHERING_ERROR | GUIDE_OTHER.
Inductive UploadMode : Type := UPLOAD_CLIENT | UPLOAD_LOCAL | UPLOAD_BOTH.

#[global] Instance SchedulerJobStatus_eq_dec : EqDecision SchedulerJobStatus.
Proof. solve_decision. Defined.
#[global] Instance SchedulerJobStage_eq_dec : EqDecision SchedulerJobStage.
Proof. solve_decision. Defined.
#[global] Instance CompletionCondition_eq_dec : EqDecision CompletionCondition.
Proof. solve_decision. Defined.
#[global] Instance SchedulerState_eq_dec : EqDecision SchedulerState.
Proof. solve_decision. Defined.
#[global] Instance SchedulerTimerState_eq_dec : EqDecision SchedulerTimerState.
Proof. solve_decision. Defined.
#[global] Instance StartupState_eq_dec : EqDecision StartupState.
Proof. solve_decision. Defined.
#[global] Instance ShutdownState_eq_dec : EqDecision ShutdownState.
Proof. solve_decision. Defined.
#[global] Instance ParkWaitState_eq_dec : EqDecision ParkWaitState.
Proof. solve_decision. Defined.
#[global] Instance EkosState_eq_dec : EqDecision EkosState.
Proof. solve_decision. Defined.
#[global] Instance CaptureState_eq_dec : EqDecision CaptureState.
Proof. solve_decision. Defined.
#[global] Instance AlignState_eq_dec : EqDecision AlignState.
Proof. solve_decision. Defined.
#[global] Instance FocusState_eq_dec : EqDecision FocusState.
Proof. solve_decision. Defined.
#[global] Instance GuideState_eq_dec : EqDecision GuideState.
Proof. solve_decision. Defined.
#[global] Instance UploadMode_eq_dec : EqDecision UploadMode.
Proof. solve_decision. Defined.

(** ** Time *)

(** A [QDateTime] is a number of seconds, or invalid (a default-constructed
    [QDateTime()]). *)
Abbreviation QDateTime := (option Z).

(** [a.secsTo(b)]: 0 when either side is invalid. *)
Definition secsTo (a b : QDateTime) : Z :=
  match a, b with
  | Some x, Some y => y - x
  | _, _ => 0
  end.

(** [a < b] on [QDateTime] with [a] valid; an invalid [b] is not later than [a]. *)
Definition dt_lt (a : Z) (b : QDateTime) : bool :=
  match b with
  | Some y => a <? y
  | None => false
  end.

(** ** Jobs *)

(** Bits of [SchedulerJob::StepPipeline]. *)
Definition USE_TRACK : Z := 1.
Definition USE_FOCUS : Z := 2.
Definition USE_ALIGN : Z := 4.
Definition USE_GUIDE : Z := 8.

(** [pipeline & flag] used as a condition. *)
Definition uses (pipeline flag : Z) : bool := negb (Z.land pipeline flag =? 0).

(** Modelled from the spec: the class [SchedulerJob] is not in the sources.  The
    spec's data model gives a job a name, a sequence reference, a completion
    condition, a pipeline bitmask, a status, a stage, computed startup and
    completion times, and its repeat and frame counts; these are the attributes
    the scheduler reads and writes through the accessors [getX]/[setX].  A job is
    named after its target ([getName] is what the capture module receives as
    target name). *)
Record SchedulerJob : Type := mkJob {
  name : string;
  sequenceFile : string;
  completionCondition : CompletionCondition;
  repeatsRequired : Z;
  repeatsRemaining : Z;
  completedIterations : Z;
  completedCount : Z;
  stepPipeline : Z;
  lightFramesRequired : bool;
  inSequenceFocus : bool;
  state : SchedulerJobStatus;
  stage : SchedulerJobStage;
  startupTime : QDateTime;
  completionTime : QDateTime
}.

Definition setRepeatsRemaining (v : Z) (j : SchedulerJob) : SchedulerJob :=
  {| name := name j; sequenceFile := sequenceFile j; completionCondition := completionCondition j;
     repeatsRequired := repeatsRequired j; repeatsRemaining := v; completedIterations :=
     completedIterations j; completedCount := completedCount j; stepPipeline := stepPipeline j;
     lightFramesRequired := lightFramesRequired j; inSequenceFocus := inSequenceFocus j; state :=
     state j; stage := stage j; startupTime := startupTime j; completionTime := completionTime j |}.

Definition setCompletedIterations (v : Z) (j : SchedulerJob) : SchedulerJob :=
  {| name := name j; sequenceFile := sequenceFile j; completionCondition := completionCondition j;
     repeatsRequired := repeatsRequired j; repeatsRemaining := repeatsRemaining j;
     completedIterations := v; completedCount := completedCount j; stepPipeline := stepPipeline j;
     lightFramesRequired := lightFramesRequired j; inSequenceFocus := inSequenceFocus j; state :=
     state j; stage := stage j; startupTime := startupTime j; completionTime := completionTime j |}.

Definition setCompletedCount (v : Z) (j : SchedulerJob) : SchedulerJob :=
  {| name := name j; sequenceFile := sequenceFile j; completionCondition := completionCondition j;
     repeatsRequired := repeatsRequired j; repeatsRemaining := repeatsRemaining j;
     completedIterations := completedIterations j; completedCount := v; stepPipeline :=
     stepPipeline j; lightFramesRequired := lightFramesRequired j; inSequenceFocus :=
     inSequenceFocus j; state := state j; stage := stage j; startupTime := startupTime j;
     completionTime := completionTime j |}.

Definition setLightFramesRequired (v : bool) (j : SchedulerJob) : SchedulerJob :=
  {| name := name j; sequenceFile := sequenceFile j; completionCondition := completionCondition j;
     repeatsRequired := repeatsRequired j; repeatsRemaining := repeatsRemaining j;
     completedIterations := completedIterations j; completedCount := completedCount j;
     stepPipeline := stepPipeline j; lightFramesRequired := v; inSequenceFocus := inSequenceFocus
     j; state := state j; stage := stage j; startupTime := startupTime j; completionTime :=
     completionTime j |}.

Definition setState (v : SchedulerJobStatus) (j : SchedulerJob) : SchedulerJob :=
  {| name := name j; sequenceFile := sequenceFile j; completionCondition := completionCondition j;
     repeatsRequired := repeatsRequired j; repeatsRemaining := repeatsRemaining j;
     completedIterations := completedIterations j; completedCount := completedCount j;
     stepPipeline := stepPipeline j; lightFramesRequired := lightFramesRequired j; inSequenceFocus
     := inSequenceFocus j; state := v; stage := stage j; startupTime := startupTime j;
     completionTime := completionTime j |}.

Definition setStage (v : SchedulerJobStage) (j : SchedulerJob) : SchedulerJob :=
  {| name := name j; sequenceFile := sequenceFile j; completionCondition := completionCondition j;
     repeatsRequired := repeatsRequired j; repeatsRemaining := repeatsRemaining j;
     completedIterations := completedIterations j; completedCount := completedCount j;
     stepPipeline := stepPipeline j; lightFramesRequired := lightFramesRequired j; inSequenceFocus
     := inSequenceFocus j; state := state j; stage := v; startupTime := startupTime j;
     completionTime := completionTime j |}.

Definition setStartupTime (v : QDateTime) (j : SchedulerJob) : SchedulerJob :=
  {| name := name j; sequenceFile := sequenceFile j; completionCondition := completionCondition j;
     repeatsRequired := repeatsRequired j; repeatsRemaining := repeatsRemaining j;
     completedIterations := completedIterations j; completedCount := completedCount j;
     stepPipeline := stepPipeline j; lightFramesRequired := lightFramesRequired j; inSequenceFocus
     := inSequenceFocus j; state := state j; stage := stage j; startupTime := v; completionTime :=
     completionTime j |}.

Definition setCompletionTime (v : QDateTime) (j : SchedulerJob) : SchedulerJob :=
  {| name := name j; sequenceFile := sequenceFile j; completionCondition := completionCondition j;
     repeatsRequired := repeatsRequired j; repeatsRemaining := repeatsRemaining j;
     completedIterations := completedIterations j; completedCount := completedCount j;
     stepPipeline := stepPipeline j; lightFramesRequired := lightFramesRequired j; inSequenceFocus
     := inSequenceFocus j; state := state j; stage := stage j; startupTime := startupTime j;
     completionTime := v |}.
(** ** Settings, events and the scheduler state *)

(** Options ([Options::...]), widget settings the code reads, and constants of
    headers ([MAX_FAILURE_ATTEMPTS], the inactivity timeouts, the update period). *)
Record Config : Type := mkConfig {
  rememberJobProgress : bool;
  forceAlignmentBeforeJob : bool;
  preemptiveShutdownOption : bool;
  preemptiveShutdownTime : Z;
  leadTime : Z;
  errorHandlingDontRestart : bool;
  errorHandlingRestartImmediately : bool;
  errorHandlingRestartQueue : bool;
  errorHandlingRescheduleErrors : bool;
  errorHandlingStrategyDelay : Z;
  schedulerUnparkDome : bool;
  schedulerUnparkMount : bool;
  schedulerOpenDustCover : bool;
  schedulerParkMountEnabled : bool;
  schedulerParkMountChecked : bool;
  startupScriptEmpty : bool;
  startupScriptValid : bool;
  shutdownScriptEmpty : bool;
  shutdownScriptValid : bool;
  maxFailureAttempts : Z;
  updatePeriodMs : Z;
  ALIGN_INACTIVITY_TIMEOUT : Z;
  CAPTURE_INACTIVITY_TIMEOUT : Z;
  FOCUS_INACTIVITY_TIMEOUT : Z;
  GUIDE_INACTIVITY_TIMEOUT : Z
}.

(** Calls into [process()] whose boolean answer the scheduler waits for. *)
Inductive ProcessCheck : Type :=
  | CheckStartupState | CheckEkosState | CheckINDIState | CheckParkWaitState
  | CheckShutdownState | CompleteShutdown | ManageConnectionLoss.

(** What the scheduler does to the outside, in the order it does it.

    Modelled from the spec: the class [SchedulerProcess] behind [process()] is
    not in the sources.  The spec: "subsystem commands are fire-and-forget
    asynchronous calls whose completions arrive as callbacks/events back on the
    same thread".  A command is recorded here when it is issued; what follows
    from it reaches the scheduler through its callbacks ([setCaptureStatus] and
    the like) and is no part of the statement that issues the command. *)
Inductive Event : Type :=
  | Log (msg : string)                  (* appendLogText *)
  | Debug (msg : string)                (* qCDebug, qCInfo *)
  | Notify (event : string)             (* KSNotification::event *)
  | NewStatus (st : SchedulerState)     (* emit newStatus *)
  | JobStarted (job : string)           (* emit jobStarted *)
  | JobEnded (job : string)             (* emit jobEnded *)
  | JobsUpdated                         (* emit jobsUpdated *)
  | StartSlew
  | StartFocusing
  | StartAstrometry
  | StartGuiding (resetCalibration : bool)
  | StartCapture (restart : bool)
  | StopGuiding
  | MountAbort
  | FocusAbort
  | AlignAbort
  | CaptureAbort                        (* blocking call *)
  | SetAlignTargetCoords (job : string)
  | SetCaptureTargetName (target : string)
  | SetMountStatus (status : Z)
  | ProcessGuidingTimer
  | CancelGuidingTimer
  | StartCurrentOperationTimer
  | TerminateScript
  | Called (c : ProcessCheck).

(** Modelled from the spec: the class [SchedulerModuleState] is not in the
    sources.  The spec's [SchedulerState] owns the job list, the active-job
    reference, the run state, the sub-state machines, the failure counters and
    the next-wake timer configuration; the fields below are those the scheduler
    reads and writes through [moduleState()].  [activeJob] and [scheduledJob] are
    job pointers: positions in [jobs], or null.  [iterationTimer] is the interval the
    single-shot iteration timer is armed with, if it is active.
    [preemptiveShutdownWakeupTime] is valid exactly while preemptive shutdown is
    enabled. *)
Record Scheduler : Type := mkScheduler {
  cfg : Config;
  jobs : list SchedulerJob;
  activeJob : option nat;
  scheduledJob : option nat;
  schedulerState : SchedulerState;
  timerState : SchedulerTimerState;
  timerInterval : Z;
  iterationSetup : bool;
  iterationTimer : option Z;
  startupState : StartupState;
  shutdownState : ShutdownState;
  parkWaitState : ParkWaitState;
  ekosState : EkosState;
  indiState : INDIState;
  preemptiveShutdownWakeupTime : QDateTime;
  alignFailureCount : Z;
  guideFailureCount : Z;
  focusFailureCount : Z;
  captureFailureCount : Z;
  captureBatch : Z;
  autofocusCompleted : bool;
  sequenceExecutionCounter : Z;
  trace : list Event
}.

Definition ms_setJobs (v : list SchedulerJob) (s : Scheduler) : Scheduler :=
  {| cfg := cfg s; jobs := v; activeJob := activeJob s; scheduledJob := scheduledJob s;
     schedulerState := schedulerState s; timerState := timerState s; timerInterval :=
     timerInterval s; iterationSetup := iterationSetup s; iterationTimer := iterationTimer s;
     startupState := startupState s; shutdownState := shutdownState s; parkWaitState :=
     parkWaitState s; ekosState := ekosState s; indiState := indiState s;
     preemptiveShutdownWakeupTime := preemptiveShutdownWakeupTime s; alignFailureCount :=
     alignFailureCount s; guideFailureCount := guideFailureCount s; focusFailureCount :=
     focusFailureCount s; captureFailureCount := captureFailureCount s; captureBatch :=
     captureBatch s; autofocusCompleted := autofocusCompleted s; sequenceExecutionCounter :=
     sequenceExecutionCounter s; trace := trace s |}.

Definition ms_setActiveJob (v : option nat) (s : Scheduler) : Scheduler :=
  {| cfg := cfg s; jobs := jobs s; activeJob := v; scheduledJob := scheduledJob s; schedulerState
     := schedulerState s; timerState := timerState s; timerInterval := timerInterval s;
     iterationSetup := iterationSetup s; iterationTimer := iterationTimer s; startupState :=
     startupState s; shutdownState := shutdownState s; parkWaitState := parkWaitState s; ekosState
     := ekosState s; indiState := indiState s; preemptiveShutdownWakeupTime :=
     preemptiveShutdownWakeupTime s; alignFailureCount := alignFailureCount s; guideFailureCount
     := guideFailureCount s; focusFailureCount := focusFailureCount s; captureFailureCount :=
     captureFailureCount s; captureBatch := captureBatch s; autofocusCompleted :=
     autofocusCompleted s; sequenceExecutionCounter := sequenceExecutionCounter s; trace := trace
     s |}.

Definition ms_setScheduledJob (v : option nat) (s : Scheduler) : Scheduler :=
  {| cfg := cfg s; jobs := jobs s; activeJob := activeJob s; scheduledJob := v; schedulerState :=
     schedulerState s; timerState := timerState s; timerInterval := timerInterval s;
     iterationSetup := iterationSetup s; iterationTimer := iterationTimer s; startupState :=
     startupState s; shutdownState := shutdownState s; parkWaitState := parkWaitState s; ekosState
     := ekosState s; indiState := indiState s; preemptiveShutdownWakeupTime :=
     preemptiveShutdownWakeupTime s; alignFailureCount := alignFailureCount s; guideFailureCount
     := guideFailureCount s; focusFailureCount := focusFailureCount s; captureFailureCount :=
     captureFailureCount s; captureBatch := captureBatch s; autofocusCompleted :=
     autofocusCompleted s; sequenceExecutionCounter := sequenceExecutionCounter s; trace := trace
     s |}.

Definition ms_setSchedulerState (v : SchedulerState) (s : Scheduler) : Scheduler :=
  {| cfg := cfg s; jobs := jobs s; activeJob := activeJob s; scheduledJob := scheduledJob s;
     schedulerState := v; timerState := timerState s; timerInterval := timerInterval s;
     iterationSetup := iterationSetup s; iterationTimer := iterationTimer s; startupState :=
     startupState s; shutdownState := shutdownState s; parkWaitState := parkWaitState s; ekosState
     := ekosState s; indiState := indiState s; preemptiveShutdownWakeupTime :=
     preemptiveShutdownWakeupTime s; alignFailureCount := alignFailureCount s; guideFailureCount
     := guideFailureCount s; focusFailureCount := focusFailureCount s; captureFailureCount :=
     captureFailureCount s; captureBatch := captureBatch s; autofocusCompleted :=
     autofocusCompleted s; sequenceExecutionCounter := sequenceExecutionCounter s; trace := trace
     s |}.

Definition ms_setTimerState (v : SchedulerTimerState) (s : Scheduler) : Scheduler :=
  {| cfg := cfg s; jobs := jobs s; activeJob := activeJob s; scheduledJob := scheduledJob s;
     schedulerState := schedulerState s; timerState := v; timerInterval := timerInterval s;
     iterationSetup := iterationSetup s; iterationTimer := iterationTimer s; startupState :=
     startupState s; shutdownState := shutdownState s; parkWaitState := parkWaitState s; ekosState
     := ekosState s; indiState := indiState s; preemptiveShutdownWakeupTime :=
     preemptiveShutdownWakeupTime s; alignFailureCount := alignFailureCount s; guideFailureCount
     := guideFailureCount s; focusFailureCount := focusFailureCount s; captureFailureCount :=
     captureFailureCount s; captureBatch := captureBatch s; autofocusCompleted :=
     autofocusCompleted s; sequenceExecutionCounter := sequenceExecutionCounter s; trace := trace
     s |}.

Definition ms_setTimerInterval (v : Z) (s : Scheduler) : Scheduler :=
  {| cfg := cfg s; jobs := jobs s; activeJob := activeJob s; scheduledJob := scheduledJob s;
     schedulerState := schedulerState s; timerState := timerState s; timerInterval := v;
     iterationSetup := iterationSetup s; iterationTimer := iterationTimer s; startupState :=
     startupState s; shutdownState := shutdownState s; parkWaitState := parkWaitState s; ekosState
     := ekosState s; indiState := indiState s; preemptiveShutdownWakeupTime :=
     preemptiveShutdownWakeupTime s; alignFailureCount := alignFailureCount s; guideFailureCount
     := guideFailureCount s; focusFailureCount := focusFailureCount s; captureFailureCount :=
     captureFailureCount s; captureBatch := captureBatch s; autofocusCompleted :=
     autofocusCompleted s; sequenceExecutionCounter := sequenceExecutionCounter s; trace := trace
     s |}.

Definition ms_setIterationSetup (v : bool) (s : Scheduler) : Scheduler :=
  {| cfg := cfg s; jobs := jobs s; activeJob := activeJob s; scheduledJob := scheduledJob s;
     schedulerState := schedulerState s; timerState := timerState s; timerInterval :=
     timerInterval s; iterationSetup := v; iterationTimer := iterationTimer s; startupState :=
     startupState s; shutdownState := shutdownState s; parkWaitState := parkWaitState s; ekosState
     := ekosState s; indiState := indiState s; preemptiveShutdownWakeupTime :=
     preemptiveShutdownWakeupTime s; alignFailureCount := alignFailureCount s; guideFailureCount
     := guideFailureCount s; focusFailureCount := focusFailureCount s; captureFailureCount :=
     captureFailureCount s; captureBatch := captureBatch s; autofocusCompleted :=
     autofocusCompleted s; sequenceExecutionCounter := sequenceExecutionCounter s; trace := trace
     s |}.

Definition ms_setIterationTimer (v : option Z) (s : Scheduler) : Scheduler :=
  {| cfg := cfg s; jobs := jobs s; activeJob := activeJob s; scheduledJob := scheduledJob s;
     schedulerState := schedulerState s; timerState := timerState s; timerInterval :=
     timerInterval s; iterationSetup := iterationSetup s; iterationTimer := v; startupState :=
     startupState s; shutdownState := shutdownState s; parkWaitState := parkWaitState s; ekosState
     := ekosState s; indiState := indiState s; preemptiveShutdownWakeupTime :=
     preemptiveShutdownWakeupTime s; alignFailureCount := alignFailureCount s; guideFailureCount
     := guideFailureCount s; focusFailureCount := focusFailureCount s; captureFailureCount :=
     captureFailureCount s; captureBatch := captureBatch s; autofocusCompleted :=
     autofocusCompleted s; sequenceExecutionCounter := sequenceExecutionCounter s; trace := trace
     s |}.

Definition ms_setStartupState (v : StartupState) (s : Scheduler) : Scheduler :=
  {| cfg := cfg s; jobs := jobs s; activeJob := activeJob s; scheduledJob := scheduledJob s;
     schedulerState := schedulerState s; timerState := timerState s; timerInterval :=
     timerInterval s; iterationSetup := iterationSetup s; iterationTimer := iterationTimer s;
     startupState := v; shutdownState := shutdownState s; parkWaitState := parkWaitState s;
     ekosState := ekosState s; indiState := indiState s; preemptiveShutdownWakeupTime :=
     preemptiveShutdownWakeupTime s; alignFailureCount := alignFailureCount s; guideFailureCount
     := guideFailureCount s; focusFailureCount := focusFailureCount s; captureFailureCount :=
     captureFailureCount s; captureBatch := captureBatch s; autofocusCompleted :=
     autofocusCompleted s; sequenceExecutionCounter := sequenceExecutionCounter s; trace := trace
     s |}.

Definition ms_setShutdownState (v : ShutdownState) (s : Scheduler) : Scheduler :=
  {| cfg := cfg s; jobs := jobs s; activeJob := activeJob s; scheduledJob := scheduledJob s;
     schedulerState := schedulerState s; timerState := timerState s; timerInterval :=
     timerInterval s; iterationSetup := iterationSetup s; iterationTimer := iterationTimer s;
     startupState := startupState s; shutdownState := v; parkWaitState := parkWaitState s;
     ekosState := ekosState s; indiState := indiState s; preemptiveShutdownWakeupTime :=
     preemptiveShutdownWakeupTime s; alignFailureCount := alignFailureCount s; guideFailureCount
     := guideFailureCount s; focusFailureCount := focusFailureCount s; captureFailureCount :=
     captureFailureCount s; captureBatch := captureBatch s; autofocusCompleted :=
     autofocusCompleted s; sequenceExecutionCounter := sequenceExecutionCounter s; trace := trace
     s |}.

Definition ms_setParkWaitState (v : ParkWaitState) (s : Scheduler) : Scheduler :=
  {| cfg := cfg s; jobs := jobs s; activeJob := activeJob s; scheduledJob := scheduledJob s;
     schedulerState := schedulerState s; timerState := timerState s; timerInterval :=
     timerInterval s; iterationSetup := iterationSetup s; iterationTimer := iterationTimer s;
     startupState := startupState s; shutdownState := shutdownState s; parkWaitState := v;
     ekosState := ekosState s; indiState := indiState s; preemptiveShutdownWakeupTime :=
     preemptiveShutdownWakeupTime s; alignFailureCount := alignFailureCount s; guideFailureCount
     := guideFailureCount s; focusFailureCount := focusFailureCount s; captureFailureCount :=
     captureFailureCount s; captureBatch := captureBatch s; autofocusCompleted :=
     autofocusCompleted s; sequenceExecutionCounter := sequenceExecutionCounter s; trace := trace
     s |}.

Definition ms_setEkosState (v : EkosState) (s : Scheduler) : Scheduler :=
  {| cfg := cfg s; jobs := jobs s; activeJob := activeJob s; scheduledJob := scheduledJob s;
     schedulerState := schedulerState s; timerState := timerState s; timerInterval :=
     timerInterval s; iterationSetup := iterationSetup s; iterationTimer := iterationTimer s;
     startupState := startupState s; shutdownState := shutdownState s; parkWaitState :=
     parkWaitState s; ekosState := v; indiState := indiState s; preemptiveShutdownWakeupTime :=
     preemptiveShutdownWakeupTime s; alignFailureCount := alignFailureCount s; guideFailureCount
     := guideFailureCount s; focusFailureCount := focusFailureCount s; captureFailureCount :=
     captureFailureCount s; captureBatch := captureBatch s; autofocusCompleted :=
     autofocusCompleted s; sequenceExecutionCounter := sequenceExecutionCounter s; trace := trace
     s |}.

Definition ms_setIndiState (v : INDIState) (s : Scheduler) : Scheduler :=
  {| cfg := cfg s; jobs := jobs s; activeJob := activeJob s; scheduledJob := scheduledJob s;
     schedulerState := schedulerState s; timerState := timerState s; timerInterval :=
     timerInterval s; iterationSetup := iterationSetup s; iterationTimer := iterationTimer s;
     startupState := startupState s; shutdownState := shutdownState s; parkWaitState :=
     parkWaitState s; ekosState := ekosState s; indiState := v; preemptiveShutdownWakeupTime :=
     preemptiveShutdownWakeupTime s; alignFailureCount := alignFailureCount s; guideFailureCount
     := guideFailureCount s; focusFailureCount := focusFailureCount s; captureFailureCount :=
     captureFailureCount s; captureBatch := captureBatch s; autofocusCompleted :=
     autofocusCompleted s; sequenceExecutionCounter := sequenceExecutionCounter s; trace := trace
     s |}.

Definition ms_setPreemptiveShutdownWakeupTime (v : QDateTime) (s : Scheduler) : Scheduler :=
  {| cfg := cfg s; jobs := jobs s; activeJob := activeJob s; scheduledJob := scheduledJob s;
     schedulerState := schedulerState s; timerState := timerState s; timerInterval :=
     timerInterval s; iterationSetup := iterationSetup s; iterationTimer := iterationTimer s;
     startupState := startupState s; shutdownState := shutdownState s; parkWaitState :=
     parkWaitState s; ekosState := ekosState s; indiState := indiState s;
     preemptiveShutdownWakeupTime := v; alignFailureCount := alignFailureCount s;
     guideFailureCount := guideFailureCount s; focusFailureCount := focusFailureCount s;
     captureFailureCount := captureFailureCount s; captureBatch := captureBatch s;
     autofocusCompleted := autofocusCompleted s; sequenceExecutionCounter :=
     sequenceExecutionCounter s; trace := trace s |}.

Definition ms_setAlignFailureCount (v : Z) (s : Scheduler) : Scheduler :=
  {| cfg := cfg s; jobs := jobs s; activeJob := activeJob s; scheduledJob := scheduledJob s;
     schedulerState := schedulerState s; timerState := timerState s; timerInterval :=
     timerInterval s; iterationSetup := iterationSetup s; iterationTimer := iterationTimer s;
     startupState := startupState s; shutdownState := shutdownState s; parkWaitState :=
     parkWaitState s; ekosState := ekosState s; indiState := indiState s;
     preemptiveShutdownWakeupTime := preemptiveShutdownWakeupTime s; alignFailureCount := v;
     guideFailureCount := guideFailureCount s; focusFailureCount := focusFailureCount s;
     captureFailureCount := captureFailureCount s; captureBatch := captureBatch s;
     autofocusCompleted := autofocusCompleted s; sequenceExecutionCounter :=
     sequenceExecutionCounter s; trace := trace s |}.

Definition ms_setGuideFailureCount (v : Z) (s : Scheduler) : Scheduler :=
  {| cfg := cfg s; jobs := jobs s; activeJob := activeJob s; scheduledJob := scheduledJob s;
     schedulerState := schedulerState s; timerState := timerState s; timerInterval :=
     timerInterval s; iterationSetup := iterationSetup s; iterationTimer := iterationTimer s;
     startupState := startupState s; shutdownState := shutdownState s; parkWaitState :=
     parkWaitState s; ekosState := ekosState s; indiState := indiState s;
     preemptiveShutdownWakeupTime := preemptiveShutdownWakeupTime s; alignFailureCount :=
     alignFailureCount s; guideFailureCount := v; focusFailureCount := focusFailureCount s;
     captureFailureCount := captureFailureCount s; captureBatch := captureBatch s;
     autofocusCompleted := autofocusCompleted s; sequenceExecutionCounter :=
     sequenceExecutionCounter s; trace := trace s |}.

Definition ms_setFocusFailureCount (v : Z) (s : Scheduler) : Scheduler :=
  {| cfg := cfg s; jobs := jobs s; activeJob := activeJob s; scheduledJob := scheduledJob s;
     schedulerState := schedulerState s; timerState := timerState s; timerInterval :=
     timerInterval s; iterationSetup := iterationSetup s; iterationTimer := iterationTimer s;
     startupState := startupState s; shutdownState := shutdownState s; parkWaitState :=
     parkWaitState s; ekosState := ekosState s; indiState := indiState s;
     preemptiveShutdownWakeupTime := preemptiveShutdownWakeupTime s; alignFailureCount :=
     alignFailureCount s; guideFailureCount := guideFailureCount s; focusFailureCount := v;
     captureFailureCount := captureFailureCount s; captureBatch := captureBatch s;
     autofocusCompleted := autofocusCompleted s; sequenceExecutionCounter :=
     sequenceExecutionCounter s; trace := trace s |}.

Definition ms_setCaptureFailureCount (v : Z) (s : Scheduler) : Scheduler :=
  {| cfg := cfg s; jobs := jobs s; activeJob := activeJob s; scheduledJob := scheduledJob s;
     schedulerState := schedulerState s; timerState := timerState s; timerInterval :=
     timerInterval s; iterationSetup := iterationSetup s; iterationTimer := iterationTimer s;
     startupState := startupState s; shutdownState := shutdownState s; parkWaitState :=
     parkWaitState s; ekosState := ekosState s; indiState := indiState s;
     preemptiveShutdownWakeupTime := preemptiveShutdownWakeupTime s; alignFailureCount :=
     alignFailureCount s; guideFailureCount := guideFailureCount s; focusFailureCount :=
     focusFailureCount s; captureFailureCount := v; captureBatch := captureBatch s;
     autofocusCompleted := autofocusCompleted s; sequenceExecutionCounter :=
     sequenceExecutionCounter s; trace := trace s |}.

Definition ms_setCaptureBatch (v : Z) (s : Scheduler) : Scheduler :=
  {| cfg := cfg s; jobs := jobs s; activeJob := activeJob s; scheduledJob := scheduledJob s;
     schedulerState := schedulerState s; timerState := timerState s; timerInterval :=
     timerInterval s; iterationSetup := iterationSetup s; iterationTimer := iterationTimer s;
     startupState := startupState s; shutdownState := shutdownState s; parkWaitState :=
     parkWaitState s; ekosState := ekosState s; indiState := indiState s;
     preemptiveShutdownWakeupTime := preemptiveShutdownWakeupTime s; alignFailureCount :=
     alignFailureCount s; guideFailureCount := guideFailureCount s; focusFailureCount :=
     focusFailureCount s; captureFailureCount := captureFailureCount s; captureBatch := v;
     autofocusCompleted := autofocusCompleted s; sequenceExecutionCounter :=
     sequenceExecutionCounter s; trace := trace s |}.

Definition ms_setAutofocusCompleted (v : bool) (s : Scheduler) : Scheduler :=
  {| cfg := cfg s; jobs := jobs s; activeJob := activeJob s; scheduledJob := scheduledJob s;
     schedulerState := schedulerState s; timerState := timerState s; timerInterval :=
     timerInterval s; iterationSetup := iterationSetup s; iterationTimer := iterationTimer s;
     startupState := startupState s; shutdownState := shutdownState s; parkWaitState :=
     parkWaitState s; ekosState := ekosState s; indiState := indiState s;
     preemptiveShutdownWakeupTime := preemptiveShutdownWakeupTime s; alignFailureCount :=
     alignFailureCount s; guideFailureCount := guideFailureCount s; focusFailureCount :=
     focusFailureCount s; captureFailureCount := captureFailureCount s; captureBatch :=
     captureBatch s; autofocusCompleted := v; sequenceExecutionCounter := sequenceExecutionCounter
     s; trace := trace s |}.

Definition ms_setSequenceExecutionCounter (v : Z) (s : Scheduler) : Scheduler :=
  {| cfg := cfg s; jobs := jobs s; activeJob := activeJob s; scheduledJob := scheduledJob s;
     schedulerState := schedulerState s; timerState := timerState s; timerInterval :=
     timerInterval s; iterationSetup := iterationSetup s; iterationTimer := iterationTimer s;
     startupState := startupState s; shutdownState := shutdownState s; parkWaitState :=
     parkWaitState s; ekosState := ekosState s; indiState := indiState s;
     preemptiveShutdownWakeupTime := preemptiveShutdownWakeupTime s; alignFailureCount :=
     alignFailureCount s; guideFailureCount := guideFailureCount s; focusFailureCount :=
     focusFailureCount s; captureFailureCount := captureFailureCount s; captureBatch :=
     captureBatch s; autofocusCompleted := autofocusCompleted s; sequenceExecutionCounter := v;
     trace := trace s |}.

Definition ms_setTrace (v : list Event) (s : Scheduler) : Scheduler :=
  {| cfg := cfg s; jobs := jobs s; activeJob := activeJob s; scheduledJob := scheduledJob s;
     schedulerState := schedulerState s; timerState := timerState s; timerInterval :=
     timerInterval s; iterationSetup := iterationSetup s; iterationTimer := iterationTimer s;
     startupState := startupState s; shutdownState := shutdownState s; parkWaitState :=
     parkWaitState s; ekosState := ekosState s; indiState := indiState s;
     preemptiveShutdownWakeupTime := preemptiveShutdownWakeupTime s; alignFailureCount :=
     alignFailureCount s; guideFailureCount := guideFailureCount s; focusFailureCount :=
     focusFailureCount s; captureFailureCount := captureFailureCount s; captureBatch :=
     captureBatch s; autofocusCompleted := autofocusCompleted s; sequenceExecutionCounter :=
     sequenceExecutionCounter s; trace := v |}.
(** ** The outside world *)

(** What [GreedyScheduler::scheduleJobs] leaves in one job. *)
Record JobSchedule : Type := mkJobSchedule {
  sch_state : SchedulerJobStatus;
  sch_startupTime : QDateTime;
  sch_completionTime : QDateTime
}.

(** Answers of the collaborators during one entry into the scheduler: the clock,
    the status properties of the modules, [process()], the sequence files and the
    greedy scheduler. *)
Record Env : Type := mkEnv {
  now : Z;                                   (* SchedulerModuleState::getLocalTime *)
  currentOperationMsec : Z;                  (* getCurrentOperationMsec *)
  alignStatus : AlignState;
  captureStatus : CaptureState;
  focusStatus : FocusState;
  guidingStatus : GuideState;                (* process()->getGuidingStatus *)
  mountStatus : option Z;                    (* None: the property is invalid *)
  domeReady : bool;
  domeMoving : option bool;                  (* None: the property is invalid *)
  processAnswer : ProcessCheck -> bool;
  checkRepeatSequence : bool;
  captureInterfaceNull : bool;
  scriptRunning : bool;
  loadSequenceQueue : string -> option (list UploadMode);
  lightFramesPending : SchedulerJob -> bool; (* updateLightFramesRequired *)
  estimateJobTime : SchedulerJob -> SchedulerJob;
  greedySchedule : list SchedulerJob -> nat -> JobSchedule;
  greedyScheduledJob : list SchedulerJob -> option nat;
  greedyCheckJob : list SchedulerJob -> nat -> bool;
  toTimerMs : Z -> Z;                        (* std::lround(ms / clock scale) *)
  showTime : QDateTime -> string             (* QDateTime::toString *)
}.

(** ** The scheduler monad *)

(** A statement of the scheduler: it runs in a state and either yields a result
    and the next state, or has none (null or dangling job pointer). *)
Definition Sch (A : Type) : Type := Scheduler -> option (A * Scheduler).

Definition ret {A : Type} (a : A) : Sch A := fun s => Some (a, s).

Definition bind {A B : Type} (m : Sch A) (k : A -> Sch B) : Sch B :=
  fun s => match m s with
           | Some (a, s') => k a s'
           | None => None
           end.

Notation "'do' x <- m ; k" := (bind m (fun x => k))
  (at level 10, x name, m at level 100, k at level 200).
Notation "'do' ' pat <- m ; k" := (bind m (fun x => match x with pat => k end))
  (at level 10, pat pattern, m at level 100, k at level 200).
Notation "m ;; k" := (bind m (fun _ => k))
  (at level 100, k at level 200, right associativity).

Definition gets {A : Type} (f : Scheduler -> A) : Sch A := fun s => Some (f s, s).
Definition modify (f : Scheduler -> Scheduler) : Sch unit := fun s => Some (tt, f s).
Definition nullDeref {A : Type} : Sch A := fun _ => None.
Definition when (b : bool) (m : Sch unit) : Sch unit := if b then m else ret tt.

(** Result and final state of a run, when there is one. *)
Definition exec {A : Type} (m : Sch A) (s : Scheduler) : option Scheduler :=
  match m s with
  | Some (_, s') => Some s'
  | None => None
  end.

Definition emit (e : Event) : Sch unit :=
  modify (fun s => ms_setTrace (trace s ++ [e]) s).
Definition appendLogText (msg : string) : Sch unit := emit (Log msg).
Definition qCDebug (msg : string) : Sch unit := emit (Debug msg).

(** [*job] for a job pointer. *)
Definition deref (i : nat) : Sch SchedulerJob :=
  fun s => match jobs s !! i with
           | Some j => Some (j, s)
           | None => None
           end.

(** [activeJob()->...]: the pointer and the job it points to. *)
Definition theActiveJob : Sch (nat * SchedulerJob) :=
  do a <- gets activeJob;
  match a with
  | Some i => do j <- deref i; ret (i, j)
  | None => nullDeref
  end.

(** [job->set...(...)] for a job pointer. *)
Definition updateJob (i : nat) (f : SchedulerJob -> SchedulerJob) : Sch unit :=
  deref i;;
  modify (fun s => ms_setJobs (alter f i (jobs s)) s).

(** [activeJob()->set...(...)]. *)
Definition updateActiveJob (f : SchedulerJob -> SchedulerJob) : Sch unit :=
  do '(i, _) <- theActiveJob;
  updateJob i f.

(** [foreach (job, moduleState()->jobs()) job->...]. *)
Definition forEachJob (f : nat -> SchedulerJob -> SchedulerJob) : Sch unit :=
  modify (fun s => ms_setJobs (imap f (jobs s)) s).

Definition quoted (n : string) : string := "'" +:+ n +:+ "'".

(** [i18np(singular, plural, ..n..)]. *)
Definition i18np (singular plural : string) (n : Z) : string :=
  if n =? 1 then singular else plural.

(** ** Module state operations *)

(** Modelled from the spec: [SchedulerModuleState::setupNextIteration] is not in
    the sources.  The spec: each phase handler "must set the next phase and the
    delay before the loop is invoked again (default: a fixed polling period ...
    when no handler requests a specific interval)". *)
Definition setupNextIterationIn (nextState : SchedulerTimerState) (ms : Z) : Sch unit :=
  modify (ms_setTimerState nextState);;
  modify (ms_setTimerInterval ms);;
  modify (ms_setIterationSetup true).

Definition setupNextIteration (nextState : SchedulerTimerState) : Sch unit :=
  do period <- gets (fun s => updatePeriodMs (cfg s));
  setupNextIterationIn nextState period.

(** Modelled from the spec: [moduleState()->preemptiveShutdown()] is not in the
    sources; pre-emptive shutdown is on while a wake-up time is set
    ([enablePreemptiveShutdown(time)], [disablePreemptiveShutdown()]). *)
Definition preemptiveShutdown (s : Scheduler) : bool :=
  bool_decide (is_Some (preemptiveShutdownWakeupTime s)).

(** Modelled from the spec: the [increase...FailureCount] functions of
    [SchedulerModuleState] are not in the sources.  The spec: "increment a
    per-subsystem failure counter and re-issue the start command; if the failure
    counter exceeds a configured maximum, mark the job ABORTED".  The counter is
    incremented and the answer is whether it is still within the maximum. *)
Definition increaseFailureCount (count : Scheduler -> Z)
    (setCount : Z -> Scheduler -> Scheduler) : Sch bool :=
  do c <- gets count;
  modify (setCount (c + 1));;
  do limit <- gets (fun s => maxFailureAttempts (cfg s));
  ret (c + 1 <=? limit).

Definition increaseAlignFailureCount : Sch bool :=
  increaseFailureCount alignFailureCount ms_setAlignFailureCount.
Definition increaseGuideFailureCount : Sch bool :=
  increaseFailureCount guideFailureCount ms_setGuideFailureCount.
Definition increaseFocusFailureCount : Sch bool :=
  increaseFailureCount focusFailureCount ms_setFocusFailureCount.
Definition increaseCaptureFailureCount : Sch bool :=
  increaseFailureCount captureFailureCount ms_setCaptureFailureCount.

(** Modelled from the spec: the [reset...] and [increaseCaptureBatch] functions
    of [SchedulerModuleState] are not in the sources; they write the "failure
    counters per subsystem (align/guide/focus/capture)" and the batch count of
    the spec as their names say. *)
Definition resetAlignFailureCount : Sch unit := modify (ms_setAlignFailureCount 0).
Definition resetGuideFailureCount : Sch unit := modify (ms_setGuideFailureCount 0).
Definition resetFocusFailureCount : Sch unit := modify (ms_setFocusFailureCount 0).
Definition resetCaptureFailureCount : Sch unit := modify (ms_setCaptureFailureCount 0).

Definition resetFailureCounters : Sch unit :=
  resetFocusFailureCount;;
  resetGuideFailureCount;;
  resetAlignFailureCount;;
  resetCaptureFailureCount.

Definition resetCaptureBatch : Sch unit := modify (ms_setCaptureBatch 0).
Definition increaseCaptureBatch : Sch unit :=
  do b <- gets captureBatch;
  modify (ms_setCaptureBatch (b + 1)).

(** ** Jobs: functions of [SchedulerJob] that are not in the sources *)

(** Modelled from the spec: [SchedulerJob::isDuplicateOf] is not in the sources.
    The spec: duplicate jobs are "jobs sharing identical sequence+target".
    Whether a job counts as a duplicate of itself is immaterial: every caller
    tests [a_job == activeJob()] first. *)
Definition isDuplicateOf (a b : SchedulerJob) : bool :=
  bool_decide (name a = name b) && bool_decide (sequenceFile a = sequenceFile b).

(** Modelled from the spec: [SchedulerJob::reset] is not in the sources.  The
    spec: a job is "possibly reset to IDLE for repeat"; the job starts over, with
    all its repeats ahead and no computed startup time. *)
Definition reset (j : SchedulerJob) : SchedulerJob :=
  setStartupTime None
    (setCompletedIterations 0
       (setRepeatsRemaining (repeatsRequired j)
          (setStage SCHEDSTAGE_IDLE (setState SCHEDJOB_IDLE j)))).

(** Modelled from the spec: [GreedyScheduler::scheduleJobs] is not in the
    sources.  The spec: it "mutates each job's cached schedule fields and status;
    does not start anything". *)
Definition applySchedule (u : JobSchedule) (j : SchedulerJob) : SchedulerJob :=
  setCompletionTime (sch_completionTime u)
    (setStartupTime (sch_startupTime u) (setState (sch_state u) j)).

(** ** The scheduler *)

Section Scheduler.

Context (env : Env).

(** A call into [process()] that answers with a boolean. *)
Definition ask (c : ProcessCheck) : Sch bool :=
  emit (Called c);;
  ret (processAnswer env c).

(** [Scheduler::setActiveJob]. *)
Definition setActiveJob (job : option nat) : Sch unit :=
  do a <- gets activeJob;
  if bool_decide (a = job) then ret tt
  else modify (ms_setActiveJob job).

(** [Scheduler::updateJobStage]. *)
Definition updateJobStage (st : SchedulerJobStage) : Sch unit :=
  do '(i, j) <- theActiveJob;
  when (negb (bool_decide (stage j = st))) (updateJob i (setStage st)).

(** [Scheduler::stopCurrentJobAction]. *)
Definition stopCurrentJobAction : Sch unit :=
  do a <- gets activeJob;
  match a with
  | Some i =>
      do j <- deref i;
      qCDebug ("Job " +:+ quoted (name j) +:+ " is stopping current action...");;
      match stage j with
      | SCHEDSTAGE_IDLE => ret tt
      | SCHEDSTAGE_SLEWING => emit MountAbort
      | SCHEDSTAGE_FOCUSING => emit FocusAbort
      | SCHEDSTAGE_ALIGNING => emit AlignAbort
      | SCHEDSTAGE_CAPTURING => emit CaptureAbort
      | _ => ret tt
      end;;
      updateJobStage SCHEDSTAGE_IDLE
  | None => ret tt
  end;;
  emit StopGuiding.

(** [Scheduler::setPaused]. *)
Definition setPaused : Sch unit :=
  setupNextIteration RUN_NOTHING;;
  appendLogText "Scheduler paused.".

(** [Scheduler::checkShutdownState]. *)
Definition checkShutdownState : Sch bool :=
  do st <- gets schedulerState;
  if bool_decide (st = SCHEDULER_PAUSED) then ret false
  else
    do sd <- gets shutdownState;
    when (bool_decide (sd = SHUTDOWN_IDLE))
      (emit (Notify "ObservatoryShutdown");;
       qCDebug "Starting shutdown process...";;
       setActiveJob None;;
       setupNextIteration RUN_SHUTDOWN);;
    ask CheckShutdownState.

(** [Scheduler::shouldSchedulerSleep]. *)
Definition shouldSchedulerSleep (job : nat) : Sch bool :=
  do j <- deref job;
  if negb (lightFramesRequired j) then ret false
  else
    let nextObservationTime := secsTo (Some (now env)) (startupTime j) in
    do scheduled <- gets scheduledJob;
    if negb (bool_decide (scheduled = Some job)) then ret false
    else
      do c <- gets cfg;
      do su <- gets startupState;
      do pw <- gets parkWaitState;
      if bool_decide (su = STARTUP_COMPLETE) && preemptiveShutdownOption c
         && (preemptiveShutdownTime c * 3600 <? nextObservationTime)
      then
        appendLogText ("Job " +:+ quoted (name j) +:+ " scheduled for execution at "
                       +:+ showTime env (startupTime j)
                       +:+ ". Observatory scheduled for shutdown until next job is ready.");;
        modify (ms_setPreemptiveShutdownWakeupTime (startupTime j));;
        checkShutdownState;;
        ret true
      else if (leadTime c * 60 <? nextObservationTime)
              && bool_decide (su = STARTUP_COMPLETE)
              && bool_decide (pw = PARKWAIT_IDLE)
              && uses (stepPipeline j) USE_TRACK
              && schedulerParkMountEnabled c
              && schedulerParkMountChecked c
      then
        appendLogText ("Job " +:+ quoted (name j) +:+ " scheduled for execution at "
                       +:+ showTime env (startupTime j)
                       +:+ ". Parking the mount until the job is ready.");;
        modify (ms_setParkWaitState PARKWAIT_PARK);;
        ret false
      else if leadTime c * 60 <? nextObservationTime
      then
        appendLogText ("Sleeping until observation job " +:+ name j +:+ " is ready at "
                       +:+ showTime env (Some (now env + (nextObservationTime + 1)))
                       +:+ "...");;
        when ((leadTime c * 60 * 12 <? nextObservationTime)
              && negb (preemptiveShutdownOption c))
          (appendLogText ("Warning: Job " +:+ quoted (name j) +:+ " is "
                          +:+ pretty nextObservationTime
                          +:+ " seconds away from now, you may want to enable Preemptive Shutdown."));;
        setupNextIterationIn RUN_WAKEUP (toTimerMs env ((nextObservationTime + 1) * 1000));;
        ret true
      else ret false.

(** [Scheduler::executeJob]. *)
Definition executeJob (job : option nat) : Sch bool :=
  match job with
  | None => ret false
  | Some i =>
      do a <- gets activeJob;
      do busy <- (if bool_decide (a = Some i)
                  then do j <- deref i; ret (bool_decide (state j = SCHEDJOB_BUSY))
                  else ret false);
      if busy then ret false
      else
        setActiveJob (Some i);;
        do '(active, _) <- theActiveJob;
        do sleep <- shouldSchedulerSleep active;
        if sleep then ret false
        else
          do '(_, j) <- theActiveJob;
          if 0 <? secsTo (Some (now env)) (startupTime j) then ret false
          else
            do c <- gets cfg;
            do target <- deref i;
            when (bool_decide (completionCondition target = FINISH_SEQUENCE)
                  && rememberJobProgress c)
              (emit (SetCaptureTargetName (name target)));;
            modify (ms_setAutofocusCompleted false);;
            qCDebug ("Executing Job " +:+ name j);;
            updateActiveJob (setState SCHEDJOB_BUSY);;
            emit JobsUpdated;;
            emit (Notify "EkosSchedulerJobStart");;
            setupNextIteration RUN_JOBCHECK;;
            ret true
  end.

(** [Scheduler::canCountCaptures]: the sequence must load, and none of its
    sequence jobs may upload to the device's own storage. *)
Definition canCountCaptures (job : SchedulerJob) : bool :=
  match loadSequenceQueue env (sequenceFile job) with
  | None => false
  | Some seqjobs => forallb (fun m => negb (bool_decide (m = UPLOAD_LOCAL))) seqjobs
  end.

(** [Scheduler::updateCompletedJobsCount], for what it does to the jobs (the frame
    map it refreshes, and with it the [forced] flag, is not part of the state). *)
Fixpoint countCompletedJobs (ks : list nat) : Sch unit :=
  match ks with
  | [] => ret tt
  | k :: ks' =>
      do oneJob <- deref k;
      match loadSequenceQueue env (sequenceFile oneJob) with
      | None =>
          appendLogText ("Warning: job " +:+ quoted (name oneJob)
                         +:+ " has inaccessible sequence " +:+ quoted (sequenceFile oneJob)
                         +:+ ", marking invalid.");;
          updateJob k (setState SCHEDJOB_INVALID)
      | Some _ =>
          updateJob k (setLightFramesRequired (lightFramesPending env oneJob))
      end;;
      countCompletedJobs ks'
  end.

Definition updateCompletedJobsCount (forced : bool) : Sch unit :=
  do n <- gets (fun s => length (jobs s));
  countCompletedJobs (seq 0 n);;
  qCDebug "Frame map summary:".

(** The two predicates of [Scheduler::selectActiveJob]. *)
Definition finished_or_aborted (job : SchedulerJob) : bool :=
  (status_rank SCHEDJOB_ERROR <=? status_rank (state job))
  || bool_decide (state job = SCHEDJOB_ABORTED).

Definition neither_scheduled_nor_aborted (job : SchedulerJob) : bool :=
  negb (bool_decide (state job = SCHEDJOB_SCHEDULED))
  && negb (bool_decide (state job = SCHEDJOB_ABORTED)).

(** [Scheduler::selectActiveJob], called on [moduleState()->jobs()]. *)
Definition selectActiveJob : Sch unit :=
  do js <- gets jobs;
  do c <- gets cfg;
  if bool_decide (js = []) || forallb neither_scheduled_nor_aborted js then
    appendLogText "No jobs left in the scheduler queue after evaluating.";;
    setActiveJob None
  else if forallb finished_or_aborted js && negb (errorHandlingDontRestart c) then
    appendLogText
      "Only aborted jobs left in the scheduler queue after evaluating, rescheduling those.";;
    forEachJob (fun _ job =>
                  if bool_decide (state job = SCHEDJOB_ABORTED)
                  then setState SCHEDJOB_EVALUATION job
                  else job)
  else
    do scheduled <- gets scheduledJob;
    match scheduled with
    | None =>
        appendLogText "No jobs scheduled.";;
        setActiveJob None
    | Some _ => setActiveJob scheduled
    end.

(** [Scheduler::evaluateJobs]. *)
Definition evaluateJobs (evaluateOnly : bool) : Sch unit :=
  do js <- gets jobs;
  if bool_decide (js = []) then ret tt
  else
    do c <- gets cfg;
    when (rememberJobProgress c) (updateCompletedJobsCount false);;
    do js <- gets jobs;
    modify (ms_setJobs (imap (fun k job => applySchedule (greedySchedule env js k) job) js));;
    modify (ms_setScheduledJob (greedyScheduledJob env js));;
    do st <- gets schedulerState;
    (if negb evaluateOnly && bool_decide (st = SCHEDULER_RUNNING)
     then selectActiveJob
     else qCDebug "Ekos finished evaluating jobs, no job selection required.");;
    emit JobsUpdated.

(** [Scheduler::resetJobs]. *)
Definition resetJobs : Sch unit :=
  setActiveJob None;;
  forEachJob (fun _ job => setCompletedCount 0 (reset job));;
  updateCompletedJobsCount true.

(** [foreach (a_job, jobs) if (a_job == activeJob() || a_job->isDuplicateOf(activeJob()))
    a_job->setState(SCHEDJOB_IDLE)]. *)
Definition markDuplicatesIdle : Sch unit :=
  do '(i, j) <- theActiveJob;
  forEachJob (fun k a_job =>
                if bool_decide (k = i) || isDuplicateOf a_job j
                then setState SCHEDJOB_IDLE a_job
                else a_job).

(** [Scheduler::findNextJob]: what to do when the active job ends.  The
    [Q_ASSERT_X] on the job state is compiled out of release builds. *)
Definition findNextJob : Sch unit :=
  do st <- gets schedulerState;
  if bool_decide (st = SCHEDULER_PAUSED) then setPaused
  else
    resetAlignFailureCount;;
    resetGuideFailureCount;;
    resetFocusFailureCount;;
    resetCaptureFailureCount;;
    do '(_, j) <- theActiveJob;
    do c <- gets cfg;
    if bool_decide (state j = SCHEDJOB_ERROR) || bool_decide (state j = SCHEDJOB_ABORTED) then
      emit (JobEnded (name j));;
      resetCaptureBatch;;
      emit StopGuiding;;
      (if bool_decide (state j = SCHEDJOB_ERROR)
       then appendLogText ("Job " +:+ quoted (name j) +:+ " is terminated due to errors.")
       else appendLogText ("Job " +:+ quoted (name j) +:+ " is aborted."));;
      updateJobStage SCHEDSTAGE_IDLE;;
      if errorHandlingRestartImmediately c
         && (bool_decide (state j = SCHEDJOB_ABORTED)
             || (bool_decide (state j = SCHEDJOB_ERROR) && errorHandlingRescheduleErrors c))
      then
        updateActiveJob (setState SCHEDJOB_SCHEDULED);;
        appendLogText ("Waiting " +:+ pretty (errorHandlingStrategyDelay c)
                       +:+ " seconds to restart job " +:+ quoted (name j) +:+ ".");;
        setupNextIterationIn RUN_WAKEUP (toTimerMs env (errorHandlingStrategyDelay c * 1000))
      else
        setActiveJob None;;
        setupNextIteration RUN_SCHEDULER
    else if bool_decide (state j = SCHEDJOB_IDLE) then
      emit (JobEnded (name j));;
      setActiveJob None;;
      setupNextIteration RUN_SCHEDULER
    else if bool_decide (completionCondition j = FINISH_SEQUENCE) then
      emit (JobEnded (name j));;
      when (rememberJobProgress c) markDuplicatesIdle;;
      resetCaptureBatch;;
      emit StopGuiding;;
      appendLogText ("Job " +:+ quoted (name j) +:+ " is complete.");;
      updateJobStage SCHEDSTAGE_IDLE;;
      do '(_, job) <- theActiveJob;
      when (negb (canCountCaptures job)) (updateActiveJob (setState SCHEDJOB_COMPLETE));;
      setActiveJob None;;
      setupNextIteration RUN_SCHEDULER
    else if bool_decide (completionCondition j = FINISH_REPEAT) && (repeatsRemaining j <=? 1) then
      when (0 <? repeatsRemaining j)
        (when (negb (rememberJobProgress c))
           (updateActiveJob (setRepeatsRemaining (repeatsRemaining j - 1));;
            updateActiveJob (setCompletedIterations (completedIterations j + 1)));;
         updateActiveJob (setStartupTime None));;
      markDuplicatesIdle;;
      evaluateJobs true;;
      do a <- gets activeJob;
      do complete <- match a with
                     | None => ret true
                     | Some i => do job <- deref i; ret (repeatsRemaining job =? 0)
                     end;
      if complete then
        stopCurrentJobAction;;
        do a <- gets activeJob;
        match a with
        | Some i =>
            do job <- deref i;
            emit (JobEnded (name job));;
            appendLogText
              ("Job " +:+ quoted (name job) +:+ " is complete after #"
               +:+ pretty (repeatsRequired job)
               +:+ i18np " batch." " batches." (repeatsRequired job));;
            when (negb (canCountCaptures job)) (updateActiveJob (setState SCHEDJOB_COMPLETE));;
            setActiveJob None
        | None => ret tt
        end;;
        setupNextIteration RUN_SCHEDULER
      else
        do a <- gets activeJob;
        do started <- executeJob a;
        if negb started then ret tt
        else
          do '(_, job) <- theActiveJob;
          (if uses (stepPipeline job) USE_ALIGN && forceAlignmentBeforeJob c then
             emit StopGuiding;;
             updateJobStage SCHEDSTAGE_ALIGNING;;
             emit StartAstrometry
           else if uses (stepPipeline job) USE_GUIDE then
             updateJobStage SCHEDSTAGE_CAPTURING;;
             emit (StartCapture false)
           else if uses (stepPipeline job) USE_ALIGN then
             updateJobStage SCHEDSTAGE_ALIGNING;;
             emit StartAstrometry
           else if uses (stepPipeline job) USE_TRACK then
             updateJobStage SCHEDSTAGE_SLEWING;;
             emit StartSlew
           else
             updateJobStage SCHEDSTAGE_CAPTURING;;
             emit (StartCapture false));;
          appendLogText
            ("Job " +:+ quoted (name job) +:+ " is repeating, #"
             +:+ pretty (repeatsRemaining job)
             +:+ i18np " batch remaining." " batches remaining." (repeatsRemaining job));;
          setupNextIteration RUN_JOBCHECK
    else if bool_decide (completionCondition j = FINISH_LOOP)
            || (bool_decide (completionCondition j = FINISH_REPEAT) && (0 <? repeatsRemaining j))
    then
      when (bool_decide (completionCondition j = FINISH_REPEAT) && (1 <? repeatsRemaining j))
        (when (negb (rememberJobProgress c))
           (updateActiveJob (setRepeatsRemaining (repeatsRemaining j - 1));;
            updateActiveJob (setCompletedIterations (completedIterations j + 1)));;
         updateActiveJob (setStartupTime None));;
      do a <- gets activeJob;
      do started <- executeJob a;
      if negb started then ret tt
      else
        do '(_, job) <- theActiveJob;
        (if uses (stepPipeline job) USE_ALIGN && forceAlignmentBeforeJob c then
           emit StopGuiding;;
           updateJobStage SCHEDSTAGE_ALIGNING;;
           emit StartAstrometry
         else
           updateJobStage SCHEDSTAGE_CAPTURING;;
           emit (StartCapture false));;
        increaseCaptureBatch;;
        (if bool_decide (completionCondition job = FINISH_REPEAT) then
           appendLogText
             ("Job " +:+ quoted (name job) +:+ " is repeating, #"
              +:+ pretty (repeatsRemaining job)
              +:+ i18np " batch remaining." " batches remaining." (repeatsRemaining job))
         else
           appendLogText ("Job " +:+ quoted (name job) +:+ " is repeating, looping indefinitely."));;
        setupNextIteration RUN_JOBCHECK
    else if bool_decide (completionCondition j = FINISH_AT) then
      if secsTo (Some (now env)) (completionTime j) <=? 0 then
        emit (JobEnded (name j));;
        markDuplicatesIdle;;
        stopCurrentJobAction;;
        resetCaptureBatch;;
        do batch <- gets captureBatch;
        appendLogText
          ("Job " +:+ quoted (name j) +:+ " stopping, reached completion time with #"
           +:+ pretty (batch + 1) +:+ i18np " batch done." " batches done." (batch + 1));;
        updateJobStage SCHEDSTAGE_IDLE;;
        setActiveJob None;;
        setupNextIteration RUN_SCHEDULER
      else
        do a <- gets activeJob;
        do started <- executeJob a;
        if negb started then ret tt
        else
          do '(_, job) <- theActiveJob;
          (if uses (stepPipeline job) USE_ALIGN && forceAlignmentBeforeJob c then
             emit StopGuiding;;
             updateJobStage SCHEDSTAGE_ALIGNING;;
             emit StartAstrometry
           else
             updateJobStage SCHEDSTAGE_CAPTURING;;
             emit (StartCapture false));;
          increaseCaptureBatch;;
          do batch <- gets captureBatch;
          appendLogText
            ("Job " +:+ quoted (name job) +:+ " completed #" +:+ pretty batch
             +:+ i18np " batch before completion time, restarted."
                       " batches before completion time, restarted." batch);;
          setupNextIteration RUN_JOBCHECK
    else
      qCDebug ("BUGBUG! Job " +:+ quoted (name j) +:+ " timer elapsed, but no action to be taken.");;
      updateJobStage SCHEDSTAGE_IDLE;;
      setActiveJob None;;
      setupNextIteration RUN_SCHEDULER.

(** The loop of [Scheduler::stop] over the jobs. *)
Fixpoint abortUnprocessedJobs (ks : list nat) (wasAborted : bool) : Sch bool :=
  match ks with
  | [] => ret wasAborted
  | k :: ks' =>
      do a <- gets activeJob;
      when (bool_decide (a = Some k)) stopCurrentJobAction;;
      do oneJob <- deref k;
      if status_rank (state oneJob) <=? status_rank SCHEDJOB_BUSY then
        appendLogText ("Job " +:+ quoted (name oneJob)
                       +:+ " has not been processed upon scheduler stop, marking aborted.");;
        updateJob k (setState SCHEDJOB_ABORTED);;
        abortUnprocessedJobs ks' true
      else abortUnprocessedJobs ks' wasAborted
  end.

(** [Scheduler::stop]. *)
Definition stop : Sch unit :=
  do st <- gets schedulerState;
  if negb (bool_decide (st = SCHEDULER_RUNNING)) then ret tt
  else
    qCDebug "Scheduler is stopping...";;
    do soft <- gets preemptiveShutdown;
    when (negb soft)
      (do n <- gets (fun s => length (jobs s));
       do wasAborted <- abortUnprocessedJobs (seq 0 n) false;
       when wasAborted (emit (Notify "SchedulerAborted")));;
    setupNextIteration RUN_NOTHING;;
    emit CancelGuidingTimer;;
    modify (ms_setSchedulerState SCHEDULER_IDLE);;
    emit (NewStatus SCHEDULER_IDLE);;
    modify (ms_setEkosState EKOS_IDLE);;
    modify (ms_setIndiState INDI_IDLE);;
    modify (ms_setParkWaitState PARKWAIT_IDLE);;
    do c <- gets cfg;
    do su <- gets startupState;
    (if negb (bool_decide (su = STARTUP_COMPLETE)) || soft then
       when (bool_decide (su = STARTUP_SCRIPT)) (emit TerminateScript);;
       modify (ms_setStartupState STARTUP_IDLE)
     else if bool_decide (su = STARTUP_COMPLETE) then
       if schedulerUnparkDome c then modify (ms_setStartupState STARTUP_UNPARK_DOME)
       else if schedulerUnparkMount c then modify (ms_setStartupState STARTUP_UNPARK_MOUNT)
       else if schedulerOpenDustCover c then modify (ms_setStartupState STARTUP_UNPARK_CAP)
       else ret tt
     else ret tt);;
    modify (ms_setShutdownState SHUTDOWN_IDLE);;
    setActiveJob None;;
    resetFailureCounters;;
    modify (ms_setAutofocusCompleted false);;
    if soft then
      do wakeup <- gets preemptiveShutdownWakeupTime;
      setupNextIterationIn RUN_WAKEUP
        (toTimerMs env ((secsTo (Some (now env)) wakeup + 1) * 1000))
    else
      when (negb (captureInterfaceNull env)) (emit (SetCaptureTargetName ""));;
      when (scriptRunning env) (emit TerminateScript).

(** [Scheduler::checkStatus]. *)
Definition checkStatus : Sch bool :=
  do st <- gets schedulerState;
  do a <- gets activeJob;
  do pausedWithoutJob <-
    (if bool_decide (st = SCHEDULER_PAUSED) then
       match a with
       | None => setPaused;; ret true
       | Some i =>
           do j <- deref i;
           match state j with
           | SCHEDJOB_BUSY => ret tt
           | SCHEDJOB_COMPLETE => ret tt
           | _ => setPaused
           end;;
           ret false
       end
     else ret false);
  if pausedWithoutJob then ret false
  else
    do a <- gets activeJob;
    match a with
    | None =>
        do sd <- gets shutdownState;
        if bool_decide (sd = SHUTDOWN_COMPLETE) || bool_decide (sd = SHUTDOWN_ERROR) then
          ask CompleteShutdown
        else if negb (bool_decide (sd = SHUTDOWN_IDLE)) then
          do ek <- gets ekosState;
          do stopping <- (if bool_decide (ek = EKOS_STOPPING)
                          then do up <- ask CheckEkosState; ret (negb up)
                          else ret false);
          if stopping then ret false
          else checkShutdownState;; ret false
        else
          do parked <- ask CheckParkWaitState;
          if negb parked then ret false
          else
            evaluateJobs false;;
            do a <- gets activeJob;
            do restarted <-
              (if bool_decide (a = None) && checkRepeatSequence env then
                 resetJobs;;
                 evaluateJobs false;;
                 do a <- gets activeJob;
                 if bool_decide (a = None) then ret false
                 else
                   do n <- gets sequenceExecutionCounter;
                   modify (ms_setSequenceExecutionCounter (n + 1));;
                   appendLogText ("Starting job sequence iteration #" +:+ pretty (n + 1));;
                   ret true
               else ret false);
            if restarted then ret true
            else
              do a <- gets activeJob;
              if bool_decide (a = None) then checkShutdownState;; ret false
              else ret true
    | Some i =>
        do sleep <- shouldSchedulerSleep i;
        if sleep then ret true
        else
          do su <- gets startupState;
          if bool_decide (su = STARTUP_ERROR) then stop;; ret true
          else
            do notStarted <- (if bool_decide (su = STARTUP_IDLE)
                              then do ok <- ask CheckStartupState; ret (negb ok)
                              else ret false);
            if notStarted || bool_decide (su = STARTUP_SCRIPT) then ret false
            else
              do ekos <- ask CheckEkosState;
              if negb ekos then ret false
              else
                do indi <- ask CheckINDIState;
                if negb indi then ret false
                else
                  do parked <- ask CheckParkWaitState;
                  if negb parked then ret false
                  else
                    do su <- gets startupState;
                    do unparking <-
                      (if (startup_rank STARTUP_SCRIPT <? startup_rank su)
                          && (startup_rank su <? startup_rank STARTUP_ERROR)
                       then do ok <- ask CheckStartupState; ret (negb ok)
                       else ret false);
                    if unparking then ret false
                    else
                      do a <- gets activeJob;
                      match a with
                      | Some k =>
                          do j <- deref k;
                          when (bool_decide (state j = SCHEDJOB_COMPLETE)) findNextJob
                      | None => ret tt
                      end;;
                      do a <- gets activeJob;
                      executeJob a;;
                      ret true
    end.

(** [Scheduler::getNextAction]. *)
Definition getNextAction : Sch unit :=
  qCDebug "Get next action...";;
  do '(_, j) <- theActiveJob;
  do focused <- gets autofocusCompleted;
  match stage j with
  | SCHEDSTAGE_IDLE =>
      if lightFramesRequired j then
        if uses (stepPipeline j) USE_TRACK then emit StartSlew
        else if uses (stepPipeline j) USE_FOCUS && negb focused then
          qCDebug "process()->startFocusing on 3485";;
          emit StartFocusing
        else if uses (stepPipeline j) USE_ALIGN then emit StartAstrometry
        else if uses (stepPipeline j) USE_GUIDE then
          if bool_decide (guidingStatus env = GUIDE_GUIDING) then
            appendLogText "Guiding already running, directly start capturing.";;
            emit (StartCapture false)
          else emit (StartGuiding false)
        else emit (StartCapture false)
      else
        when (negb (stepPipeline j =? 0))
          (appendLogText ("Job " +:+ quoted (name j)
                          +:+ " is proceeding directly to capture stage because only calibration frames are pending."));;
        emit (StartCapture false)
  | SCHEDSTAGE_SLEW_COMPLETE =>
      if uses (stepPipeline j) USE_FOCUS && negb focused then
        qCDebug "process()->startFocusing on 3514";;
        emit StartFocusing
      else if uses (stepPipeline j) USE_ALIGN then emit StartAstrometry
      else if uses (stepPipeline j) USE_GUIDE then emit (StartGuiding false)
      else emit (StartCapture false)
  | SCHEDSTAGE_FOCUS_COMPLETE =>
      if uses (stepPipeline j) USE_ALIGN then emit StartAstrometry
      else if uses (stepPipeline j) USE_GUIDE then emit (StartGuiding false)
      else emit (StartCapture false)
  | SCHEDSTAGE_ALIGN_COMPLETE => updateJobStage SCHEDSTAGE_RESLEWING
  | SCHEDSTAGE_RESLEWING_COMPLETE =>
      if uses (stepPipeline j) USE_FOCUS && inSequenceFocus j then
        qCDebug "process()->startFocusing on 3544";;
        emit StartFocusing
      else if uses (stepPipeline j) USE_GUIDE then emit (StartGuiding false)
      else emit (StartCapture false)
  | SCHEDSTAGE_POSTALIGN_FOCUSING_COMPLETE =>
      if uses (stepPipeline j) USE_GUIDE then emit (StartGuiding false)
      else emit (StartCapture false)
  | SCHEDSTAGE_GUIDING_COMPLETE => emit (StartCapture false)
  | _ => ret tt
  end.

(** [Scheduler::checkJobStageEplogue]. *)
Definition checkJobStageEplogue : Sch unit :=
  do a <- gets activeJob;
  if bool_decide (a = None) then ret tt
  else
    do ok <- checkStatus;
    if negb ok then ret tt
    else
      emit ProcessGuidingTimer;;
      do a <- gets activeJob;
      if bool_decide (a = None) then ret tt
      else
        do '(_, j) <- theActiveJob;
        do c <- gets cfg;
        match stage j with
        | SCHEDSTAGE_IDLE =>
            emit (JobStarted (name j));;
            getNextAction
        | SCHEDSTAGE_ALIGNING =>
            when (ALIGN_INACTIVITY_TIMEOUT c <? currentOperationMsec env)
              (if bool_decide (alignStatus env = ALIGN_IDLE) then
                 do retry <- increaseAlignFailureCount;
                 if retry then
                   qCDebug "Align module timed out. Restarting request...";;
                   emit StartAstrometry
                 else
                   appendLogText ("Warning: job " +:+ quoted (name j)
                                  +:+ " alignment procedure failed, marking aborted.");;
                   updateActiveJob (setState SCHEDJOB_ABORTED);;
                   findNextJob
               else emit StartCurrentOperationTimer)
        | SCHEDSTAGE_CAPTURING =>
            when (CAPTURE_INACTIVITY_TIMEOUT c <? currentOperationMsec env)
              (if bool_decide (captureStatus env = CAPTURE_IDLE) then
                 do retry <- increaseCaptureFailureCount;
                 if retry then
                   qCDebug "capture module timed out. Restarting request...";;
                   emit (StartCapture false)
                 else
                   appendLogText ("Warning: job " +:+ quoted (name j)
                                  +:+ " capture procedure failed, marking aborted.");;
                   updateActiveJob (setState SCHEDJOB_ABORTED);;
                   findNextJob
               else emit StartCurrentOperationTimer)
        | SCHEDSTAGE_FOCUSING =>
            when (FOCUS_INACTIVITY_TIMEOUT c <? currentOperationMsec env)
              (if bool_decide (focusStatus env = FOCUS_IDLE)
                  || bool_decide (focusStatus env = FOCUS_WAITING) then
                 do retry <- increaseFocusFailureCount;
                 if retry then
                   qCDebug "Focus module timed out. Restarting request...";;
                   emit StartFocusing
                 else
                   appendLogText ("Warning: job " +:+ quoted (name j)
                                  +:+ " focusing procedure failed, marking aborted.");;
                   updateActiveJob (setState SCHEDJOB_ABORTED);;
                   findNextJob
               else emit StartCurrentOperationTimer)
        | SCHEDSTAGE_GUIDING =>
            when (GUIDE_INACTIVITY_TIMEOUT c <? currentOperationMsec env)
              (if bool_decide (guidingStatus env = GUIDE_IDLE)
                  || bool_decide (guidingStatus env = GUIDE_CONNECTED)
                  || bool_decide (guidingStatus env = GUIDE_DISCONNECTED) then
                 do retry <- increaseGuideFailureCount;
                 if retry then
                   qCDebug "guide module timed out. Restarting request...";;
                   emit (StartGuiding false)
                 else
                   appendLogText ("Warning: job " +:+ quoted (name j)
                                  +:+ " guiding procedure failed, marking aborted.");;
                   updateActiveJob (setState SCHEDJOB_ABORTED);;
                   findNextJob
               else emit StartCurrentOperationTimer)
        | SCHEDSTAGE_SLEWING | SCHEDSTAGE_RESLEWING =>
            match mountStatus env with
            | Some status => emit (SetMountStatus status)
            | None =>
                appendLogText ("Warning: job " +:+ quoted (name j)
                               +:+ " lost connection to the mount, attempting to reconnect.");;
                do ok <- ask ManageConnectionLoss;
                when (negb ok) (updateActiveJob (setState SCHEDJOB_ERROR))
            end
        | SCHEDSTAGE_SLEW_COMPLETE | SCHEDSTAGE_RESLEWING_COMPLETE =>
            if domeReady env then
              match domeMoving env with
              | None =>
                  appendLogText ("Warning: job " +:+ quoted (name j)
                                 +:+ " lost connection to the dome, attempting to reconnect.");;
                  do ok <- ask ManageConnectionLoss;
                  when (negb ok) (updateActiveJob (setState SCHEDJOB_ERROR))
              | Some moving => when (negb moving) getNextAction
              end
            else getNextAction
        | _ => ret tt
        end.

(** [Scheduler::checkJobStage].  Its periodic debug line, and the counter that
    spaces it, are left out. *)
Definition checkJobStage : Sch unit :=
  do a <- gets activeJob;
  match a with
  | None => ret tt
  | Some i =>
      do js <- gets jobs;
      if negb (greedyCheckJob env js i) then
        updateActiveJob (setState SCHEDJOB_IDLE);;
        stopCurrentJobAction;;
        findNextJob
      else checkJobStageEplogue
  end.

(** [Scheduler::execute]. *)
Definition execute : Sch unit :=
  do st <- gets schedulerState;
  do c <- gets cfg;
  match st with
  | SCHEDULER_IDLE =>
      if negb (startupScriptEmpty c) && negb (startupScriptValid c) then
        appendLogText "Warning: startup script URL %1 is not valid."
      else if negb (shutdownScriptEmpty c) && negb (shutdownScriptValid c) then
        appendLogText "Warning: shutdown script URL %1 is not valid."
      else
        qCDebug "Scheduler is starting...";;
        modify (ms_setSchedulerState SCHEDULER_RUNNING);;
        emit (NewStatus SCHEDULER_RUNNING);;
        setupNextIteration RUN_SCHEDULER;;
        appendLogText "Scheduler started.";;
        qCDebug "Scheduler started."
  | SCHEDULER_PAUSED =>
      modify (ms_setSchedulerState SCHEDULER_RUNNING);;
      emit (NewStatus SCHEDULER_RUNNING);;
      setupNextIteration RUN_SCHEDULER;;
      appendLogText "Scheduler resuming.";;
      qCDebug "Scheduler resuming."
  | _ => ret tt
  end.

(** [Scheduler::wakeUpScheduler]. *)
Definition wakeUpScheduler : Sch unit :=
  do soft <- gets preemptiveShutdown;
  if soft then
    modify (ms_setPreemptiveShutdownWakeupTime None);;
    appendLogText "Scheduler is awake.";;
    execute
  else
    do st <- gets schedulerState;
    (if bool_decide (st = SCHEDULER_RUNNING)
     then appendLogText "Scheduler is awake. Jobs shall be started when ready..."
     else appendLogText "Scheduler is awake. Jobs shall be started when scheduler is resumed.");;
    setupNextIteration RUN_SCHEDULER.

(** [Scheduler::init]. *)
Definition init : Sch unit :=
  modify (ms_setPreemptiveShutdownWakeupTime (Some (now env)));;
  modify (ms_setIterationSetup false);;
  setupNextIterationIn RUN_WAKEUP 10.

(** [Scheduler::runSchedulerIteration]: one tick; the result is the sleep
    interval.  The start time and iteration count kept for [printStates] are left
    out. *)
Definition runSchedulerIteration : Sch Z :=
  do keepTimerState <- gets timerState;
  modify (ms_setIterationSetup false);;
  match keepTimerState with
  | RUN_WAKEUP => wakeUpScheduler
  | RUN_SCHEDULER => checkStatus;; ret tt
  | RUN_JOBCHECK => checkJobStage
  | RUN_SHUTDOWN => checkShutdownState;; ret tt
  | RUN_NOTHING => modify (ms_setTimerInterval (-1))
  end;;
  do setup <- gets iterationSetup;
  when (negb setup)
    (do period <- gets (fun s => updatePeriodMs (cfg s));
     modify (ms_setTimerInterval period));;
  gets timerInterval.

(** [Scheduler::iterate]: run a tick, then arm the single-shot iteration timer
    with the sleep interval unless it is negative. *)
Definition iterate : Sch unit :=
  do msSleep <- runSchedulerIteration;
  if msSleep <? 0 then ret tt
  else modify (ms_setIterationTimer (Some msSleep)).

(** The iteration timer fires: being single-shot it is no longer active, and its
    slot [iterate] runs. *)
Definition iterationTimeout : Sch unit :=
  modify (ms_setIterationTimer None);;
  iterate.

(** [Scheduler::start]. *)
Definition start : Sch unit :=
  forEachJob (fun _ j => setState SCHEDJOB_IDLE j);;
  init;;
  iterate.

(** [Scheduler::setCaptureStatus]. *)
Definition setCaptureStatus (status : CaptureState) : Sch unit :=
  do a <- gets activeJob;
  match a with
  | None => ret tt
  | Some i =>
      do j <- deref i;
      qCDebug "Capture State";;
      if bool_decide (state j = SCHEDJOB_SCHEDULED) && dt_lt (now env) (startupTime j)
      then ret tt
      else if bool_decide (stage j = SCHEDSTAGE_CAPTURING) then
        if bool_decide (status = CAPTURE_PROGRESS) && uses (stepPipeline j) USE_ALIGN then
          emit (SetAlignTargetCoords (name j))
        else if bool_decide (status = CAPTURE_ABORTED) then
          appendLogText ("Warning: job " +:+ quoted (name j) +:+ " failed to capture target.");;
          do retry <- increaseCaptureFailureCount;
          if retry then
            if uses (stepPipeline j) USE_GUIDE
               && (bool_decide (guidingStatus env = GUIDE_ABORTED)
                   || bool_decide (guidingStatus env = GUIDE_CALIBRATION_ERROR)
                   || bool_decide (guidingStatus env = GUIDE_DITHERING_ERROR))
            then
              do n <- gets captureFailureCount;
              do c <- gets cfg;
              appendLogText ("Job " +:+ quoted (name j)
                             +:+ " is capturing, is restarting its guiding procedure (attempt #"
                             +:+ pretty n +:+ " of " +:+ pretty (maxFailureAttempts c) +:+ ").");;
              emit (StartGuiding true)
            else
              appendLogText ("Warning: job " +:+ quoted (name j)
                             +:+ " failed its capture procedure, restarting capture.");;
              emit (StartCapture true)
          else
            appendLogText ("Warning: job " +:+ quoted (name j)
                           +:+ " failed its capture procedure, marking aborted.");;
            updateActiveJob (setState SCHEDJOB_ABORTED);;
            findNextJob
        else if bool_decide (status = CAPTURE_COMPLETE) then
          emit (Notify "EkosScheduledImagingFinished");;
          updateActiveJob (setState SCHEDJOB_COMPLETE);;
          findNextJob
        else if bool_decide (status = CAPTURE_IMAGE_RECEIVED) then
          do c <- gets cfg;
          (if rememberJobProgress c then
             updateCompletedJobsCount true;;
             forEachJob (fun _ job => estimateJobTime env job)
           else
             updateActiveJob (fun job => setCompletedCount (completedCount job + 1) job));;
          resetCaptureFailureCount
        else ret tt
      else ret tt
  end.

End Scheduler.

(** * Notions used in the statements *)

(** The lookup of a job's state in the job list. *)
Definition stateOf (s : Scheduler) (i : nat) : option SchedulerJobStatus :=
  state <$> jobs s !! i.

(** The active job: the pointer is set and points to job [j]. *)
Definition activeJobIs (s : Scheduler) (i : nat) (j : SchedulerJob) : Prop :=
  activeJob s = Some i ∧ jobs s !! i = Some j.

(** The four failure counters, in the order align, guide, focus, capture. *)
Definition failureCounts (s : Scheduler) : Z * Z * Z * Z :=
  (alignFailureCount s, guideFailureCount s, focusFailureCount s, captureFailureCount s).

(** The commands that start a pipeline step. *)
Definition isStartCommand (e : Event) : bool :=
  match e with
  | StartSlew | StartFocusing | StartAstrometry | StartGuiding _ | StartCapture _ => true
  | _ => false
  end.

(** ** Job termination with no matching branch *)


(** ** The pipeline steps, in the words of the specification *)

Inductive PipelineStep : Type := TRACK | FOCUS | ALIGN | GUIDE | CAPTURE.

(** The priority order of the steps. *)
Definition pipelineOrder : list PipelineStep := [TRACK; FOCUS; ALIGN; GUIDE; CAPTURE].

(** Whether a step is to be taken by a job with the given pipeline: it is
    enabled in the pipeline, capture always is, and focusing is skipped once
    [focused] says that autofocus has completed. *)
Definition stepDue (pipeline : Z) (focused : bool) (step : PipelineStep) : bool :=
  match step with
  | TRACK => uses pipeline USE_TRACK
  | FOCUS => uses pipeline USE_FOCUS && negb focused
  | ALIGN => uses pipeline USE_ALIGN
  | GUIDE => uses pipeline USE_GUIDE
  | CAPTURE => true
  end.

(** The first step of the priority order that is to be taken. *)
Definition firstStep (pipeline : Z) (focused : bool) : PipelineStep :=
  hd CAPTURE (List.filter (stepDue pipeline focused) pipelineOrder).

(** The command that starts a step; a guide step finds guiding running and
    goes on to capture. *)
Definition startOf (guiding : GuideState) (step : PipelineStep) : Event :=
  match step with
  | TRACK => StartSlew
  | FOCUS => StartFocusing
  | ALIGN => StartAstrometry
  | GUIDE => if bool_decide (guiding = GUIDE_GUIDING) then StartCapture false
             else StartGuiding false
  | CAPTURE => StartCapture false
  end.

(** The specification's sentence on leaving the idle stage, read literally:
    enabled means enabled in the pipeline.  [getNextAction] on [s] issues
    exactly the start command of the first enabled step. *)
Definition startsFirstEnabledStep (env : Env) (s : Scheduler) : Prop :=
  ∀ i j, activeJobIs s i j →
    stage j = SCHEDSTAGE_IDLE →
    lightFramesRequired j = true →
    ∃ s' evs, exec (getNextAction env) s = Some s'
      ∧ trace s' = trace s ++ evs
      ∧ List.filter isStartCommand evs
        = [startOf (guidingStatus env) (firstStep (stepPipeline j) false)].

(** ** Selection among aborted jobs *)

(** Every job of a non-empty list is aborted or in error. *)
Definition allAbortedOrErrored (js : list SchedulerJob) : Prop :=
  js ≠ [] ∧ Forall (fun j => state j = SCHEDJOB_ABORTED ∨ state j = SCHEDJOB_ERROR) js.

(** What requeueing does to a job. *)
Definition requeued (j : SchedulerJob) : SchedulerJob :=
  if bool_decide (state j = SCHEDJOB_ABORTED) then setState SCHEDJOB_EVALUATION j else j.

(** The specification's scenario, read literally: with every job aborted or in
    error and the strategy "don't restart", [selectActiveJob] leaves no active job
    and logs its "no jobs left" message. *)
Definition logsNoJobsLeft (s : Scheduler) : Prop :=
  allAbortedOrErrored (jobs s) →
  errorHandlingDontRestart (cfg s) = true →
  ∃ s', exec selectActiveJob s = Some s'
    ∧ activeJob s' = None
    ∧ Log "No jobs left in the scheduler queue after evaluating." ∈ trace s'.

(** ** Duplicates of a completed job *)

(** The specification's sentence on a sequence job completing under "remember
    job progress", read literally: after [findNextJob], the active job and each
    of its duplicates is idle. *)
Definition marksJobAndDuplicatesIdle (env : Env) (s : Scheduler) : Prop :=
  ∀ i j, activeJobIs s i j →
    completionCondition j = FINISH_SEQUENCE →
    rememberJobProgress (cfg s) = true →
    ∃ s', exec (findNextJob env) s = Some s'
      ∧ ∀ k a, jobs s !! k = Some a → k = i ∨ isDuplicateOf a j = true →
               stateOf s' k = Some SCHEDJOB_IDLE.

(** ** Capture batches *)

(** A capture batch of the active job ends: the pipeline has brought the job to
    the capture stage, and the capture module reports [CAPTURE_COMPLETE]. *)
Definition captureBatchEnds (env : Env) : Sch unit :=
  updateJobStage SCHEDSTAGE_CAPTURING;;
  setCaptureStatus env CAPTURE_COMPLETE.

(** One batch after the other, each in the world it ends in. *)
Fixpoint captureBatchesEnd (envs : list Env) : Sch unit :=
  match envs with
  | [] => ret tt
  | env :: envs' => captureBatchEnds env;; captureBatchesEnd envs'
  end.

(** Job [i] is the active job, busy, repeating with [r] repeats remaining, in a
    scheduler that is running and does not remember job progress, with timing
    options that are not negative. *)
Definition repeating (i : nat) (r : Z) (s : Scheduler) : Prop :=
  activeJob s = Some i
  ∧ schedulerState s = SCHEDULER_RUNNING
  ∧ rememberJobProgress (cfg s) = false
  ∧ 0 <= leadTime (cfg s) ∧ 0 <= preemptiveShutdownTime (cfg s)
  ∧ ∃ j, jobs s !! i = Some j
      ∧ completionCondition j = FINISH_REPEAT
      ∧ repeatsRemaining j = r
      ∧ state j = SCHEDJOB_BUSY.

(** The run of job [i] is over: there is no active job, the job has no repeats
    left and is at rest at the idle stage, it is complete if its captures cannot
    be counted from storage, and the next tick re-evaluates the queue. *)
Definition finalized (env : Env) (i : nat) (s : Scheduler) : Prop :=
  activeJob s = None
  ∧ timerState s = RUN_SCHEDULER
  ∧ ∃ j, jobs s !! i = Some j
      ∧ repeatsRemaining j = 0
      ∧ stage j = SCHEDSTAGE_IDLE
      ∧ (canCountCaptures env j = false -> state j = SCHEDJOB_COMPLETE).

(** The specification's sentence on repeating jobs, read literally: the end of a
    batch with repeats remaining decrements them and restarts the pipeline. *)
Definition restartsWhileRepeatsRemain (env : Env) (s : Scheduler) : Prop :=
  ∀ i r, repeating i r s → 0 < r →
    ∃ s', exec (captureBatchEnds env) s = Some s' ∧ repeating i (r - 1) s'.

(** ** Failure counters *)

(** The specification's sentence on the retry budget, read literally: whenever
    [findNextJob] runs, it leaves the four counters at zero. *)
Definition resetsFailureCounters (env : Env) (s : Scheduler) : Prop :=
  ∀ s', exec (findNextJob env) s = Some s' → failureCounts s' = (0, 0, 0, 0).

(** A statement that leaves the four failure counters as they are. *)
Definition keepsFailureCounts {A : Type} (m : Sch A) : Prop :=
  ∀ s a s', m s = Some (a, s') -> failureCounts s' = failureCounts s.

(** ** Statements that return *)

(** Job [i] of [n] is the active job. *)
Definition validActive (i n : nat) (s : Scheduler) : Prop :=
  activeJob s = Some i ∧ (i < n)%nat ∧ length (jobs s) = n.

(** From a state that satisfies [P], the statement returns, with [Q]. *)
Definition returnsFrom {A : Type} (P : Scheduler -> Prop) (m : Sch A)
    (Q : A -> Scheduler -> Prop) : Prop :=
  ∀ s, P s -> ∃ a s', m s = Some (a, s') ∧ Q a s'.

(** The statement returns, whatever the state. *)
Definition total {A : Type} (m : Sch A) : Prop :=
  returnsFrom (fun _ => True) m (fun _ _ => True).

(** With a valid active job the statement returns, and the active job is still
    the same valid one. *)
Definition safe {A : Type} (i n : nat) (m : Sch A) : Prop :=
  returnsFrom (validActive i n) m (fun _ => validActive i n).

(** With a valid active job the statement returns. *)
Definition ok {A : Type} (i n : nat) (m : Sch A) : Prop :=
  returnsFrom (validActive i n) m (fun _ _ => True).

(** * Sample schedulers

    Concrete configurations, worlds and scheduler states on which the statements
    below are exercised. *)

(** The default settings, except for "remember job progress", "force alignment
    before job" and the error handling strategy "don't restart". *)
Definition sampleConfig (remember force dontRestart : bool) : Config :=
  {| rememberJobProgress := remember; forceAlignmentBeforeJob := force;
     preemptiveShutdownOption := false; preemptiveShutdownTime := 2; leadTime := 5;
     errorHandlingDontRestart := dontRestart; errorHandlingRestartImmediately := false;
     errorHandlingRestartQueue := negb dontRestart; errorHandlingRescheduleErrors := false;
     errorHandlingStrategyDelay := 0;
     schedulerUnparkDome := false; schedulerUnparkMount := false;
     schedulerOpenDustCover := false;
     schedulerParkMountEnabled := false; schedulerParkMountChecked := false;
     startupScriptEmpty := true; startupScriptValid := false;
     shutdownScriptEmpty := true; shutdownScriptValid := false;
     maxFailureAttempts := 3; updatePeriodMs := 1000;
     ALIGN_INACTIVITY_TIMEOUT := 120000; CAPTURE_INACTIVITY_TIMEOUT := 15000;
     FOCUS_INACTIVITY_TIMEOUT := 120000; GUIDE_INACTIVITY_TIMEOUT := 60000 |}.

Definition defaultConfig : Config := sampleConfig false false false.

(** A greedy scheduler that leaves every job as it is and selects none. *)
Definition keepSchedule (js : list SchedulerJob) (k : nat) : JobSchedule :=
  match js !! k with
  | Some j => {| sch_state := state j; sch_startupTime := startupTime j;
                 sch_completionTime := completionTime j |}
  | None => {| sch_state := SCHEDJOB_IDLE; sch_startupTime := None;
               sch_completionTime := None |}
  end.

(** A world at time 1000 in which every module answers and works; sequences are
    stored on the client when [local] is false and on the device when it is
    true; [msec] is the age of the current operation and [capture] the status of
    the capture module. *)
Definition sampleEnv (local : bool) (msec : Z) (capture : CaptureState) : Env :=
  {| now := 1000; currentOperationMsec := msec;
     alignStatus := ALIGN_OTHER; captureStatus := capture; focusStatus := FOCUS_OTHER;
     guidingStatus := GUIDE_IDLE; mountStatus := Some 0; domeReady := false;
     domeMoving := Some false; processAnswer := fun _ => true;
     checkRepeatSequence := false; captureInterfaceNull := false; scriptRunning := false;
     loadSequenceQueue := fun _ => Some [if local then UPLOAD_LOCAL else UPLOAD_CLIENT];
     lightFramesPending := fun _ => true; estimateJobTime := fun j => j;
     greedySchedule := keepSchedule; greedyScheduledJob := fun _ => None;
     greedyCheckJob := fun _ _ => true; toTimerMs := fun ms => ms;
     showTime := fun _ => "" |}.

(** A job on target [target] that started at time 900 and needs light frames. *)
Definition sampleJob (target : string) (condition : CompletionCondition) (repeats : Z)
    (pipeline : Z) (st : SchedulerJobStatus) (stg : SchedulerJobStage) : SchedulerJob :=
  {| name := target; sequenceFile := "sequence.esq"; completionCondition := condition;
     repeatsRequired := repeats; repeatsRemaining := repeats; completedIterations := 0;
     completedCount := 0; stepPipeline := pipeline; lightFramesRequired := true;
     inSequenceFocus := false; state := st; stage := stg; startupTime := Some 900;
     completionTime := None |}.

(** A scheduler after startup, with no failures so far. *)
Definition sampleScheduler (c : Config) (st : SchedulerState) (timer : SchedulerTimerState)
    (js : list SchedulerJob) (active : option nat) : Scheduler :=
  {| cfg := c; jobs := js; activeJob := active; scheduledJob := None;
     schedulerState := st; timerState := timer; timerInterval := 1000;
     iterationSetup := true; iterationTimer := None;
     startupState := STARTUP_COMPLETE; shutdownState := SHUTDOWN_IDLE;
     parkWaitState := PARKWAIT_IDLE; ekosState := EKOS_OTHER; indiState := INDI_OTHER;
     preemptiveShutdownWakeupTime := None;
     alignFailureCount := 0; guideFailureCount := 0; focusFailureCount := 0;
     captureFailureCount := 0; captureBatch := 0; autofocusCompleted := false;
     sequenceExecutionCounter := 1; trace := [] |}.

(** A scheduler that was stopped: idle, in the phase [RUN_NOTHING]. *)
Definition stoppedScheduler : Scheduler :=
  sampleScheduler defaultConfig SCHEDULER_IDLE RUN_NOTHING [] None.

(** A busy job at the idle stage whose pipeline has focus and align enabled, in
    a scheduler where autofocus has completed. *)
Definition focusedScheduler : Scheduler :=
  ms_setAutofocusCompleted true
    (sampleScheduler defaultConfig SCHEDULER_RUNNING RUN_JOBCHECK
       [sampleJob "M31" FINISH_SEQUENCE 1 (USE_FOCUS + USE_ALIGN) SCHEDJOB_BUSY SCHEDSTAGE_IDLE]
       (Some 0%nat)).

(** One aborted job, the strategy "don't restart", nothing scheduled. *)
Definition abortedScheduler : Scheduler :=
  sampleScheduler (sampleConfig false false true) SCHEDULER_RUNNING RUN_SCHEDULER
    [sampleJob "M31" FINISH_SEQUENCE 1 0 SCHEDJOB_ABORTED SCHEDSTAGE_IDLE] None.

(** Two jobs on the same target with the same sequence, the first one active and
    complete, under "remember job progress". *)
Definition duplicateJobs : list SchedulerJob :=
  [sampleJob "M31" FINISH_SEQUENCE 1 0 SCHEDJOB_COMPLETE SCHEDSTAGE_CAPTURING;
   sampleJob "M31" FINISH_SEQUENCE 1 0 SCHEDJOB_COMPLETE SCHEDSTAGE_IDLE].

Definition duplicatesScheduler : Scheduler :=
  sampleScheduler (sampleConfig true false false) SCHEDULER_RUNNING RUN_JOBCHECK
    duplicateJobs (Some 0%nat).

(** A busy job at the capture stage; [failures] is the capture failure count. *)
Definition capturingScheduler (condition : CompletionCondition) (repeats failures : Z) : Scheduler :=
  ms_setCaptureFailureCount failures
    (sampleScheduler defaultConfig SCHEDULER_RUNNING RUN_JOBCHECK
       [sampleJob "M31" condition repeats 0 SCHEDJOB_BUSY SCHEDSTAGE_CAPTURING] (Some 0%nat)).

(** The same after the system status check of [checkStatus] in [sampleEnv]. *)
Definition checkedScheduler (condition : CompletionCondition) (repeats failures : Z) : Scheduler :=
  ms_setTrace [Called CheckEkosState; Called CheckINDIState; Called CheckParkWaitState]
    (capturingScheduler condition repeats failures).

(** A paused scheduler whose capture has failed twice. *)
Definition pausedScheduler : Scheduler :=
  ms_setCaptureFailureCount 2
    (sampleScheduler defaultConfig SCHEDULER_PAUSED RUN_JOBCHECK
       [sampleJob "M31" FINISH_SEQUENCE 1 0 SCHEDJOB_COMPLETE SCHEDSTAGE_CAPTURING] (Some 0%nat)).

(** * Running statements *)

Section Run.
Context {A B : Type}.
Implicit Types (m : Sch A) (k : A -> Sch B) (s : Scheduler).

Lemma run_bind m k s a s' : m s = Some (a, s') -> bind m k s = k a s'.
Proof. unfold bind. intros ->. reflexivity. Qed.

Lemma run_ret (a : A) k s : bind (ret a) k s = k a s.
Proof. reflexivity. Qed.

Lemma run_gets (f : Scheduler -> A) k s : bind (gets f) k s = k (f s) s.
Proof. reflexivity. Qed.

Lemma run_assoc {C : Type} (m0 : Sch C) (k0 : C -> Sch A) k s :
  bind (bind m0 k0) k s = bind m0 (fun c => bind (k0 c) k) s.
Proof. unfold bind. destruct (m0 s) as [[c s']|]; reflexivity. Qed.

Lemma run_if (b : bool) (m1 m2 : Sch A) k s :
  bind (if b then m1 else m2) k s = if b then bind m1 k s else bind m2 k s.
Proof. destruct b; reflexivity. Qed.
End Run.

Section RunUnit.
Context {B : Type}.
Implicit Types (k : unit -> Sch B) (s : Scheduler).

Lemma run_modify f k s : bind (modify f) k s = k tt (f s).
Proof. reflexivity. Qed.

Lemma run_emit e k s : bind (emit e) k s = k tt (ms_setTrace (trace s ++ [e]) s).
Proof. reflexivity. Qed.

Lemma run_log msg k s :
  bind (appendLogText msg) k s = k tt (ms_setTrace (trace s ++ [Log msg]) s).
Proof. reflexivity. Qed.

Lemma run_debug msg k s :
  bind (qCDebug msg) k s = k tt (ms_setTrace (trace s ++ [Debug msg]) s).
Proof. reflexivity. Qed.

Lemma run_when_true (m : Sch unit) k s : bind (when true m) k s = bind m k s.
Proof. reflexivity. Qed.

Lemma run_when_false (m : Sch unit) k s : bind (when false m) k s = k tt s.
Proof. reflexivity. Qed.
End RunUnit.

Lemma end_modify f s : modify f s = Some (tt, f s).
Proof. reflexivity. Qed.

Lemma end_emit e s : emit e s = Some (tt, ms_setTrace (trace s ++ [e]) s).
Proof. reflexivity. Qed.

Lemma end_log msg s : appendLogText msg s = Some (tt, ms_setTrace (trace s ++ [Log msg]) s).
Proof. reflexivity. Qed.

Lemma end_debug msg s : qCDebug msg s = Some (tt, ms_setTrace (trace s ++ [Debug msg]) s).
Proof. reflexivity. Qed.

Lemma end_ret {A : Type} (a : A) s : ret a s = Some (a, s).
Proof. reflexivity. Qed.

Lemma end_gets {A : Type} (f : Scheduler -> A) s : gets f s = Some (f s, s).
Proof. reflexivity. Qed.

Arguments bind : simpl never.
Arguments ret : simpl never.
Arguments gets : simpl never.
Arguments modify : simpl never.
Arguments emit : simpl never.
Arguments appendLogText : simpl never.
Arguments qCDebug : simpl never.
Arguments when : simpl never.
Arguments deref : simpl never.
Arguments theActiveJob : simpl never.
Arguments updateJob : simpl never.
Arguments updateActiveJob : simpl never.
Arguments forEachJob : simpl never.
Arguments String.append : simpl never.
Arguments pretty : simpl never.
Arguments Z.mul : simpl never.
Arguments Z.add : simpl never.
Arguments Z.sub : simpl never.
Arguments Z.ltb : simpl never.
Arguments Z.leb : simpl never.
Arguments Z.eqb : simpl never.
Arguments secsTo : simpl never.
Arguments dt_lt : simpl never.
Arguments uses : simpl never.
Arguments canCountCaptures : simpl never.

(** One step of a run: a primitive statement at the head of a sequence. *)
Ltac mstep :=
  first [ rewrite run_assoc | rewrite run_ret | rewrite run_gets | rewrite run_modify
        | rewrite run_emit | rewrite run_log | rewrite run_debug
        | rewrite run_when_true | rewrite run_when_false ];
  simpl.

(** A call at the head of a sequence, given what the call does. *)
Ltac mcall lem :=
  rewrite ?run_assoc; erewrite run_bind by (eapply lem; simpl; eauto); simpl.

Lemma ms_setJobs_id s : ms_setJobs (jobs s) s = s.
Proof. destruct s; reflexivity. Qed.

Lemma ms_setActiveJob_id s : ms_setActiveJob (activeJob s) s = s.
Proof. destruct s; reflexivity. Qed.

Lemma setStage_same j : setStage (stage j) j = j.
Proof. destruct j; reflexivity. Qed.

Lemma alter_same (f : SchedulerJob -> SchedulerJob) i j (l : list SchedulerJob) :
  l !! i = Some j -> f j = j -> alter f i l = l.
Proof.
  intros Hj Hf. apply list_eq. intros k.
  destruct (decide (i = k)) as [<-|Hne].
  - rewrite list_lookup_alter_eq, Hj. simpl. congruence.
  - rewrite list_lookup_alter_ne by done. reflexivity.
Qed.

Lemma setActiveJob_run job s : setActiveJob job s = Some (tt, ms_setActiveJob job s).
Proof.
  unfold setActiveJob. rewrite run_gets. case_bool_decide as H.
  - subst job. rewrite ms_setActiveJob_id. reflexivity.
  - reflexivity.
Qed.

Lemma setupNextIterationIn_run st ms s :
  setupNextIterationIn st ms s
  = Some (tt, ms_setIterationSetup true (ms_setTimerInterval ms (ms_setTimerState st s))).
Proof. reflexivity. Qed.

Lemma setupNextIteration_run st s :
  setupNextIteration st s
  = Some (tt, ms_setIterationSetup true
                (ms_setTimerInterval (updatePeriodMs (cfg s)) (ms_setTimerState st s))).
Proof. reflexivity. Qed.

Lemma deref_run i j s : jobs s !! i = Some j -> deref i s = Some (j, s).
Proof. unfold deref. intros ->. reflexivity. Qed.

Lemma theActiveJob_run i j s :
  activeJob s = Some i -> jobs s !! i = Some j -> theActiveJob s = Some ((i, j), s).
Proof.
  intros Ha Hj. unfold theActiveJob. rewrite run_gets, Ha.
  erewrite run_bind by (apply deref_run; eassumption). reflexivity.
Qed.

Lemma updateJob_run i j f s :
  jobs s !! i = Some j -> updateJob i f s = Some (tt, ms_setJobs (alter f i (jobs s)) s).
Proof.
  intros Hj. unfold updateJob. erewrite run_bind by (apply deref_run; eassumption).
  reflexivity.
Qed.

Lemma updateActiveJob_run i j f s :
  activeJob s = Some i -> jobs s !! i = Some j ->
  updateActiveJob f s = Some (tt, ms_setJobs (alter f i (jobs s)) s).
Proof.
  intros Ha Hj. unfold updateActiveJob.
  erewrite run_bind by (apply theActiveJob_run; eassumption).
  eapply updateJob_run; eassumption.
Qed.

Lemma updateJobStage_run i j st s :
  activeJob s = Some i -> jobs s !! i = Some j ->
  updateJobStage st s = Some (tt, ms_setJobs (alter (setStage st) i (jobs s)) s).
Proof.
  intros Ha Hj. unfold updateJobStage.
  erewrite run_bind by (apply theActiveJob_run; eassumption).
  simpl. case_bool_decide as H; simpl.
  - unfold when, ret. rewrite (alter_same _ i j) by (done || (subst st; apply setStage_same)).
    rewrite ms_setJobs_id. reflexivity.
  - unfold when. eapply updateJob_run; eassumption.
Qed.

Lemma exec_run {A : Type} (m : Sch A) s a s' : m s = Some (a, s') -> exec m s = Some s'.
Proof. unfold exec. intros ->. reflexivity. Qed.

(** * Starting a job *)

Lemma run_same {A B : Type} (m m' : Sch A) (k : A -> Sch B) s :
  m s = m' s -> bind m k s = bind m' k s.
Proof. unfold bind. intros ->. reflexivity. Qed.

Lemma run_ext {A B : Type} (m : Sch A) (k k' : A -> Sch B) s :
  (∀ a s', m s = Some (a, s') -> k a s' = k' a s') -> bind m k s = bind m k' s.
Proof. unfold bind. intros H. destruct (m s) as [[a s']|]; [apply H|]; reflexivity. Qed.

(** A job that is due does not send the scheduler to sleep. *)
Lemma shouldSchedulerSleep_due env s i j :
  jobs s !! i = Some j ->
  secsTo (Some (now env)) (startupTime j) <= 0 ->
  0 <= leadTime (cfg s) ->
  0 <= preemptiveShutdownTime (cfg s) ->
  shouldSchedulerSleep env i s = Some (false, s).
Proof.
  intros Hj Hdue Hlead Hpre. unfold shouldSchedulerSleep.
  mcall deref_run.
  destruct (lightFramesRequired j); simpl; [|reflexivity].
  mstep. destruct (bool_decide (scheduledJob s = Some i)); simpl; [|reflexivity].
  repeat mstep.
  rewrite (proj2 (Z.ltb_ge _ _)) by lia.
  rewrite (proj2 (Z.ltb_ge (leadTime (cfg s) * 60) _)) by lia.
  rewrite andb_false_r. reflexivity.
Qed.

(** [executeJob] on the active job, when it is not busy and is due: the job is
    started. *)
Lemma executeJob_due env s i j :
  activeJob s = Some i ->
  jobs s !! i = Some j ->
  state j ≠ SCHEDJOB_BUSY ->
  secsTo (Some (now env)) (startupTime j) <= 0 ->
  0 <= leadTime (cfg s) ->
  0 <= preemptiveShutdownTime (cfg s) ->
  executeJob env (Some i) s
  = (when (bool_decide (completionCondition j = FINISH_SEQUENCE)
           && rememberJobProgress (cfg s))
       (emit (SetCaptureTargetName (name j)));;
     modify (ms_setAutofocusCompleted false);;
     qCDebug ("Executing Job " +:+ name j);;
     updateActiveJob (setState SCHEDJOB_BUSY);;
     emit JobsUpdated;;
     emit (Notify "EkosSchedulerJobStart");;
     setupNextIteration RUN_JOBCHECK;;
     ret true) s.
Proof.
  intros Ha Hj Hbusy Hdue Hlead Hpre. unfold executeJob.
  mstep. rewrite Ha, bool_decide_eq_true_2 by done.
  mstep. mcall deref_run. mstep.
  rewrite (bool_decide_eq_false_2 _ Hbusy).
  mcall setActiveJob_run.
  erewrite run_bind by (apply theActiveJob_run; [reflexivity | exact Hj]). simpl.
  erewrite run_bind by (apply (shouldSchedulerSleep_due env _ i j); simpl; assumption).
  simpl.
  erewrite run_bind by (apply theActiveJob_run; [reflexivity | exact Hj]). simpl.
  rewrite (proj2 (Z.ltb_ge _ _)) by lia.
  mstep. mcall deref_run.
  assert (E : ms_setActiveJob (Some i) s = s)
    by (rewrite <- Ha; apply ms_setActiveJob_id).
  rewrite E. reflexivity.
Qed.

Lemma markDuplicatesIdle_run i j s :
  activeJob s = Some i -> jobs s !! i = Some j ->
  markDuplicatesIdle s
  = Some (tt, ms_setJobs
                (imap (fun k a_job =>
                         if bool_decide (k = i) || isDuplicateOf a_job j
                         then setState SCHEDJOB_IDLE a_job else a_job) (jobs s)) s).
Proof.
  intros Ha Hj. unfold markDuplicatesIdle. mcall theActiveJob_run. reflexivity.
Qed.

(** * Statements that return *)

Lemma returnsFrom_bind {A B : Type} P (Q' : A -> Scheduler -> Prop) (Q : B -> Scheduler -> Prop)
    (m : Sch A) (k : A -> Sch B) :
  returnsFrom P m Q' -> (∀ a, returnsFrom (Q' a) (k a) Q) -> returnsFrom P (bind m k) Q.
Proof.
  intros Hm Hk s Hs. destruct (Hm s Hs) as (a & s1 & E & H1).
  destruct (Hk a s1 H1) as (b & s' & E' & H').
  exists b, s'. split; [|exact H']. rewrite (run_bind _ _ _ _ _ E). exact E'.
Qed.

Lemma returnsFrom_weaken {A : Type} (P P' : Scheduler -> Prop) (Q Q' : A -> Scheduler -> Prop)
    (m : Sch A) :
  returnsFrom P m Q -> (∀ s, P' s -> P s) -> (∀ a s, Q a s -> Q' a s) ->
  returnsFrom P' m Q'.
Proof.
  intros Hm HP HQ s Hs. destruct (Hm s (HP s Hs)) as (a & s' & E & H).
  exists a, s'. auto.
Qed.

Lemma returnsFrom_same {A : Type} (P : Scheduler -> Prop) (Q : A -> Scheduler -> Prop) (m m' : Sch A) :
  (∀ s, P s -> m s = m' s) -> returnsFrom P m' Q -> returnsFrom P m Q.
Proof.
  intros E Hm s Hs. rewrite (E s Hs). exact (Hm s Hs).
Qed.

Section Returns.
Context {A B : Type}.

Lemma total_bind (m : Sch A) (k : A -> Sch B) :
  total m -> (∀ a, total (k a)) -> total (bind m k).
Proof. intros Hm Hk. eapply returnsFrom_bind; [exact Hm | exact Hk]. Qed.

Lemma safe_bind i n (m : Sch A) (k : A -> Sch B) :
  safe i n m -> (∀ a, safe i n (k a)) -> safe i n (bind m k).
Proof. intros Hm Hk. eapply returnsFrom_bind; [exact Hm | exact Hk]. Qed.

Lemma ok_bind i n (m : Sch A) (k : A -> Sch B) :
  safe i n m -> (∀ a, ok i n (k a)) -> ok i n (bind m k).
Proof. intros Hm Hk. eapply returnsFrom_bind; [exact Hm | exact Hk]. Qed.

Lemma ok_total i n (m : Sch A) : total m -> ok i n m.
Proof. intros H. eapply returnsFrom_weaken; [exact H | done | done]. Qed.

Lemma ok_safe i n (m : Sch A) : safe i n m -> ok i n m.
Proof. intros H. eapply returnsFrom_weaken; [exact H | done | done]. Qed.

Lemma total_ret (a : A) : total (ret a).
Proof. intros s _. exists a, s. done. Qed.

Lemma safe_ret i n (a : A) : safe i n (ret a).
Proof. intros s Hs. exists a, s. done. Qed.

Lemma total_gets (f : Scheduler -> A) : total (gets f).
Proof. intros s _. exists (f s), s. done. Qed.

Lemma safe_gets i n (f : Scheduler -> A) : safe i n (gets f).
Proof. intros s Hs. exists (f s), s. done. Qed.

Lemma ok_bind_ret i n (a : A) (k : A -> Sch B) : ok i n (k a) -> ok i n (bind (ret a) k).
Proof. intros H. eapply returnsFrom_same; [|exact H]. reflexivity. Qed.

Lemma safe_bind_ret i n (a : A) (k : A -> Sch B) : safe i n (k a) -> safe i n (bind (ret a) k).
Proof. intros H. eapply returnsFrom_same; [|exact H]. reflexivity. Qed.

Lemma ok_assoc {C : Type} i n (m : Sch C) (k0 : C -> Sch A) (k : A -> Sch B) :
  ok i n (bind m (fun c => bind (k0 c) k)) -> ok i n (bind (bind m k0) k).
Proof. intros H. eapply returnsFrom_same; [|exact H]. intros s _. apply run_assoc. Qed.

Lemma safe_assoc {C : Type} i n (m : Sch C) (k0 : C -> Sch A) (k : A -> Sch B) :
  safe i n (bind m (fun c => bind (k0 c) k)) -> safe i n (bind (bind m k0) k).
Proof. intros H. eapply returnsFrom_same; [|exact H]. intros s _. apply run_assoc. Qed.

Lemma ok_bind_activeJob i n (k : option nat -> Sch B) :
  ok i n (k (Some i)) -> ok i n (bind (gets activeJob) k).
Proof.
  intros H. eapply returnsFrom_same; [|exact H].
  intros s [Ha _]. rewrite run_gets, Ha. reflexivity.
Qed.

Lemma safe_bind_activeJob i n (k : option nat -> Sch B) :
  safe i n (k (Some i)) -> safe i n (bind (gets activeJob) k).
Proof.
  intros H. eapply returnsFrom_same; [|exact H].
  intros s [Ha _]. rewrite run_gets, Ha. reflexivity.
Qed.
End Returns.

Lemma total_modify f : total (modify f).
Proof. intros s _. exists tt, (f s). done. Qed.

Lemma safe_modify i n f :
  (∀ s, activeJob (f s) = activeJob s) -> (∀ s, length (jobs (f s)) = length (jobs s)) ->
  safe i n (modify f).
Proof.
  intros Ha Hl s (H1 & H2 & H3). exists tt, (f s). split; [reflexivity|].
  repeat split; [rewrite Ha | | rewrite Hl]; assumption.
Qed.

Lemma safe_deref i n k : (k < n)%nat -> safe i n (deref k).
Proof.
  intros Hk s Hs. destruct (lookup_lt_is_Some_2 (jobs s) k) as [j Hj].
  { destruct Hs as (_ & _ & ->). exact Hk. }
  exists j, s. split; [apply deref_run, Hj | exact Hs].
Qed.

Lemma safe_deref_active i n : safe i n (deref i).
Proof. intros s Hs. apply (safe_deref i n i); [apply Hs | exact Hs]. Qed.

Lemma safe_updateJob i n k f : (k < n)%nat -> safe i n (updateJob k f).
Proof.
  intros Hk. unfold updateJob. apply safe_bind; [apply safe_deref, Hk|]. intros _.
  apply safe_modify; intros s; simpl; [reflexivity | apply length_alter].
Qed.

Lemma safe_theActiveJob i n : safe i n theActiveJob.
Proof.
  unfold theActiveJob. apply safe_bind_activeJob.
  apply safe_bind; [apply safe_deref_active | intros j; apply safe_ret].
Qed.

Lemma validActive_lookup i n s : validActive i n s -> ∃ j, jobs s !! i = Some j.
Proof.
  intros (_ & Hi & Hn). apply lookup_lt_is_Some_2. rewrite Hn. exact Hi.
Qed.

Lemma safe_updateActiveJob i n f : safe i n (updateActiveJob f).
Proof.
  intros s Hs. destruct (validActive_lookup i n s Hs) as [j Hj].
  unfold updateActiveJob.
  rewrite (run_bind _ _ _ _ _ (theActiveJob_run i j s (proj1 Hs) Hj)).
  apply (safe_updateJob i n i f); [apply Hs | exact Hs].
Qed.

Lemma safe_forEachJob i n f : safe i n (forEachJob f).
Proof. apply safe_modify; intros s; simpl; [reflexivity | apply length_imap]. Qed.

Lemma safe_updateJobStage i n st : safe i n (updateJobStage st).
Proof.
  intros s Hs. destruct (validActive_lookup i n s Hs) as [j Hj].
  unfold updateJobStage.
  rewrite (run_bind _ _ _ _ _ (theActiveJob_run i j s (proj1 Hs) Hj)). simpl.
  destruct (negb (bool_decide (stage j = st))); unfold when.
  - apply (safe_updateJob i n i); [apply Hs | exact Hs].
  - apply (safe_ret i n tt s Hs).
Qed.

Lemma safe_markDuplicatesIdle i n : safe i n markDuplicatesIdle.
Proof.
  unfold markDuplicatesIdle. apply safe_bind; [apply safe_theActiveJob|].
  intros [k j]. apply safe_forEachJob.
Qed.

Lemma safe_emit i n e : safe i n (emit e).
Proof. apply safe_modify; reflexivity. Qed.

Lemma total_emit e : total (emit e).
Proof. apply total_modify. Qed.

Lemma safe_when i n b (m : Sch unit) : safe i n m -> safe i n (when b m).
Proof. intros H. destruct b; [exact H | apply safe_ret]. Qed.

Lemma total_when b (m : Sch unit) : total m -> total (when b m).
Proof. intros H. destruct b; [exact H | apply total_ret]. Qed.

Lemma safe_if {A : Type} i n (b : bool) (m1 m2 : Sch A) :
  safe i n m1 -> safe i n m2 -> safe i n (if b then m1 else m2).
Proof. destruct b; auto. Qed.

Lemma total_if {A : Type} (b : bool) (m1 m2 : Sch A) :
  total m1 -> total m2 -> total (if b then m1 else m2).
Proof. destruct b; auto. Qed.

Lemma safe_bind_theActiveJob {B : Type} i n (k : nat * SchedulerJob -> Sch B) :
  (∀ j, safe i n (k (i, j))) -> safe i n (bind theActiveJob k).
Proof.
  intros Hk s Hs. destruct (validActive_lookup i n s Hs) as [j Hj].
  rewrite (run_bind _ _ _ _ _ (theActiveJob_run i j s (proj1 Hs) Hj)).
  exact (Hk j s Hs).
Qed.

Lemma ok_bind_theActiveJob {B : Type} i n (k : nat * SchedulerJob -> Sch B) :
  (∀ j, ok i n (k (i, j))) -> ok i n (bind theActiveJob k).
Proof.
  intros Hk s Hs. destruct (validActive_lookup i n s Hs) as [j Hj].
  rewrite (run_bind _ _ _ _ _ (theActiveJob_run i j s (proj1 Hs) Hj)).
  exact (Hk j s Hs).
Qed.

Create HintDb returns.

#[local] Hint Resolve safe_ret safe_gets safe_emit safe_deref_active safe_theActiveJob
  safe_updateActiveJob safe_forEachJob safe_updateJobStage safe_markDuplicatesIdle
  total_ret total_gets total_modify total_emit : returns.

Ltac returns_step :=
  cbv beta iota;
  match goal with
  | |- safe _ _ (bind (bind _ _) _) => apply safe_assoc
  | |- safe _ _ (bind (ret _) _) => apply safe_bind_ret
  | |- safe _ _ (bind (gets activeJob) _) => apply safe_bind_activeJob
  | |- safe _ _ (bind theActiveJob _) => apply safe_bind_theActiveJob; intros ?
  | |- safe _ _ (bind _ _) => apply safe_bind; [|intros ?]
  | |- safe _ _ (when _ _) => apply safe_when
  | |- safe _ _ (if _ then _ else _) => apply safe_if
  | |- safe _ _ (match ?x with _ => _ end) => destruct x
  | |- safe _ _ (modify _) => apply safe_modify; reflexivity
  | |- safe _ _ (appendLogText _) => apply safe_emit
  | |- safe _ _ (qCDebug _) => apply safe_emit
  | |- safe _ _ _ => solve [auto with returns]
  | |- total (bind _ _) => apply total_bind; [|intros ?]
  | |- total (when _ _) => apply total_when
  | |- total (if _ then _ else _) => apply total_if
  | |- total (match ?x with _ => _ end) => destruct x
  | |- total (appendLogText _) => apply total_emit
  | |- total (qCDebug _) => apply total_emit
  | |- total _ => solve [auto with returns]
  end.

Ltac returns := repeat returns_step.

Lemma total_setActiveJob job : total (setActiveJob job).
Proof. unfold setActiveJob. returns. Qed.

Lemma safe_setupNextIterationIn i n st ms : safe i n (setupNextIterationIn st ms).
Proof. unfold setupNextIterationIn. returns. Qed.

Lemma total_setupNextIterationIn st ms : total (setupNextIterationIn st ms).
Proof. unfold setupNextIterationIn. returns. Qed.

Lemma safe_setupNextIteration i n st : safe i n (setupNextIteration st).
Proof. unfold setupNextIteration. returns. apply safe_setupNextIterationIn. Qed.

Lemma total_setupNextIteration st : total (setupNextIteration st).
Proof. unfold setupNextIteration. returns. apply total_setupNextIterationIn. Qed.

#[local] Hint Resolve total_setActiveJob safe_setupNextIterationIn total_setupNextIterationIn
  safe_setupNextIteration total_setupNextIteration : returns.

Lemma total_setPaused : total setPaused.
Proof. unfold setPaused. returns. Qed.

Lemma safe_stopCurrentJobAction i n : safe i n stopCurrentJobAction.
Proof. unfold stopCurrentJobAction. returns. Qed.

Lemma total_ask env c : total (ask env c).
Proof. unfold ask. returns. Qed.

#[local] Hint Resolve total_setPaused safe_stopCurrentJobAction total_ask : returns.

Lemma total_checkShutdownState env : total (checkShutdownState env).
Proof. unfold checkShutdownState. returns. Qed.

#[local] Hint Resolve total_checkShutdownState : returns.

Lemma safe_countCompletedJobs env i n ks :
  Forall (fun k => (k < n)%nat) ks -> safe i n (countCompletedJobs env ks).
Proof.
  induction 1 as [|k ks Hk _ IH]; simpl; [apply safe_ret|].
  apply safe_bind; [apply safe_deref, Hk|]. intros oneJob.
  apply safe_bind; [|intros _; exact IH].
  destruct (loadSequenceQueue env (sequenceFile oneJob)).
  - apply safe_updateJob, Hk.
  - apply safe_bind; [apply safe_emit | intros _; apply safe_updateJob, Hk].
Qed.

Lemma safe_updateCompletedJobsCount env i n forced :
  safe i n (updateCompletedJobsCount env forced).
Proof.
  intros s Hs. unfold updateCompletedJobsCount. rewrite run_gets.
  revert s Hs. apply safe_bind; [|intros _; apply safe_emit].
  intros s Hs. apply safe_countCompletedJobs; [|exact Hs].
  apply Forall_forall. intros k Hk. apply elem_of_seq in Hk.
  destruct Hs as (_ & _ & <-). lia.
Qed.

Lemma safe_evaluateJobs_only env i n : safe i n (evaluateJobs env true).
Proof.
  intros s Hs. unfold evaluateJobs. rewrite run_gets.
  destruct (bool_decide (jobs s = [])); [apply (safe_ret i n tt s Hs)|].
  rewrite run_gets.
  assert (safe i n (when (rememberJobProgress (cfg s)) (updateCompletedJobsCount env false)))
    as Hcount by (apply safe_when, safe_updateCompletedJobsCount).
  destruct (Hcount s Hs) as ([] & s1 & E1 & H1). rewrite (run_bind _ _ _ _ _ E1).
  rewrite run_gets, !run_modify, run_gets. cbn [negb andb].
  rewrite run_debug. eexists tt, _. split; [apply end_emit|].
  destruct H1 as (Ha & Hi & Hn). repeat split; simpl; [exact Ha | exact Hi |].
  rewrite length_imap. exact Hn.
Qed.

#[local] Hint Resolve safe_evaluateJobs_only : returns.

(** [shouldSchedulerSleep] returns, and when the scheduler is not to sleep the
    active job is as it was. *)
Lemma shouldSchedulerSleep_returns env i n :
  returnsFrom (validActive i n) (shouldSchedulerSleep env i)
    (fun sleep s' => sleep = false -> validActive i n s').
Proof.
  assert (∀ (m : Sch bool), safe i n m ->
            returnsFrom (validActive i n) m (fun sleep s' => sleep = false -> validActive i n s'))
    as Hsafe.
  { intros m Hm. eapply returnsFrom_weaken; [exact Hm | done | done]. }
  unfold shouldSchedulerSleep.
  eapply returnsFrom_bind; [apply safe_deref_active|]. intros j. cbv beta.
  destruct (negb (lightFramesRequired j)); [apply Hsafe, safe_ret|].
  eapply returnsFrom_bind; [apply safe_gets|]. intros scheduled.
  destruct (negb (bool_decide (scheduled = Some i))); [apply Hsafe, safe_ret|].
  eapply returnsFrom_bind; [apply safe_gets|]. intros c.
  eapply returnsFrom_bind; [apply safe_gets|]. intros su.
  eapply returnsFrom_bind; [apply safe_gets|]. intros pw. cbv beta.
  match goal with |- context [if ?b then _ else _] => destruct b end.
  { eapply returnsFrom_bind; [apply safe_emit|]. intros [].
    eapply returnsFrom_bind; [apply safe_modify; reflexivity|]. intros [].
    eapply returnsFrom_bind; [apply ok_total, total_checkShutdownState|].
    intros b s _. exists true, s. split; [reflexivity | discriminate]. }
  match goal with |- context [if ?b then _ else _] => destruct b end.
  { apply Hsafe. returns. }
  match goal with |- context [if ?b then _ else _] => destruct b end.
  { apply Hsafe. returns. }
  apply Hsafe, safe_ret.
Qed.

Lemma returnsFrom_bind_theActiveJob {B : Type} i n (k : nat * SchedulerJob -> Sch B) Q :
  (∀ j, returnsFrom (validActive i n) (k (i, j)) Q) ->
  returnsFrom (validActive i n) (bind theActiveJob k) Q.
Proof.
  intros Hk s Hs. destruct (validActive_lookup i n s Hs) as [j Hj].
  rewrite (run_bind _ _ _ _ _ (theActiveJob_run i j s (proj1 Hs) Hj)).
  exact (Hk j s Hs).
Qed.

(** [executeJob] on the active job returns, and when the job is started it is
    still the active job. *)
Lemma executeJob_returns env i n :
  returnsFrom (validActive i n) (executeJob env (Some i))
    (fun started s' => started = true -> validActive i n s').
Proof.
  assert (∀ (m : Sch bool), safe i n m ->
            returnsFrom (validActive i n) m
              (fun started s' => started = true -> validActive i n s'))
    as Hsafe.
  { intros m Hm. eapply returnsFrom_weaken; [exact Hm | done | done]. }
  unfold executeJob.
  eapply returnsFrom_same.
  { intros s Hs. rewrite run_gets, (proj1 Hs), bool_decide_eq_true_2 by reflexivity.
    rewrite run_assoc. reflexivity. }
  eapply returnsFrom_bind; [apply safe_deref_active|]. intros target.
  eapply returnsFrom_same; [intros s Hs; apply run_ret|]. cbv beta.
  destruct (bool_decide (state target = SCHEDJOB_BUSY)); [apply Hsafe, safe_ret|].
  eapply returnsFrom_bind with (Q' := fun _ => validActive i n).
  { intros s (Ha & Hi & Hn). exists tt, (ms_setActiveJob (Some i) s).
    split; [apply setActiveJob_run | repeat split; assumption]. }
  intros []. apply returnsFrom_bind_theActiveJob. intros _.
  eapply returnsFrom_bind; [apply shouldSchedulerSleep_returns|].
  intros [|].
  { intros s _. exists false, s. split; [reflexivity | discriminate]. }
  eapply returnsFrom_weaken with (P := validActive i n) (Q := fun started s' => started = true -> validActive i n s');
    [|intros s Hs; apply Hs; reflexivity|done].
  apply returnsFrom_bind_theActiveJob. intros j.
  destruct (0 <? secsTo (Some (now env)) (startupTime j)); [apply Hsafe, safe_ret|].
  apply Hsafe. returns.
Qed.

Lemma ok_bind_executeJob {B : Type} env i n (k : bool -> Sch B) :
  ok i n (k true) -> total (k false) -> ok i n (bind (executeJob env (Some i)) k).
Proof.
  intros Hstarted Hnot. eapply returnsFrom_bind; [apply executeJob_returns|].
  intros [|].
  - eapply returnsFrom_weaken; [exact Hstarted | intros s Hs; apply Hs; reflexivity | done].
  - eapply returnsFrom_weaken; [exact Hnot | done | done].
Qed.

Lemma safe_resetAlignFailureCount i n : safe i n resetAlignFailureCount.
Proof. apply safe_modify; reflexivity. Qed.

Lemma safe_resetGuideFailureCount i n : safe i n resetGuideFailureCount.
Proof. apply safe_modify; reflexivity. Qed.

Lemma safe_resetFocusFailureCount i n : safe i n resetFocusFailureCount.
Proof. apply safe_modify; reflexivity. Qed.

Lemma safe_resetCaptureFailureCount i n : safe i n resetCaptureFailureCount.
Proof. apply safe_modify; reflexivity. Qed.

Lemma safe_resetCaptureBatch i n : safe i n resetCaptureBatch.
Proof. apply safe_modify; reflexivity. Qed.

Lemma safe_increaseCaptureBatch i n : safe i n increaseCaptureBatch.
Proof. unfold increaseCaptureBatch. returns. Qed.

#[local] Hint Resolve safe_resetAlignFailureCount safe_resetGuideFailureCount
  safe_resetFocusFailureCount safe_resetCaptureFailureCount safe_resetCaptureBatch
  safe_increaseCaptureBatch : returns.

Ltac ok_step :=
  cbv beta iota;
  match goal with
  | |- ok _ _ (bind (bind _ _) _) => apply ok_assoc
  | |- ok _ _ (bind (ret _) _) => apply ok_bind_ret
  | |- ok _ _ (bind (gets activeJob) _) => apply ok_bind_activeJob
  | |- ok _ _ (bind theActiveJob _) => apply ok_bind_theActiveJob; intros ?
  | |- ok _ _ (bind (executeJob _ (Some _)) _) =>
      apply ok_bind_executeJob; cbn [negb]; [|solve [returns]]
  | |- ok _ _ (bind (setActiveJob None) _) => apply ok_total; solve [returns]
  | |- ok _ _ (bind (if ?b then _ else _) _) => destruct b
  | |- ok _ _ (bind _ _) => apply ok_bind; [solve [returns] | intros ?]
  | |- ok _ _ (if ?b then _ else _) => destruct b
  | |- ok _ _ (match ?x with _ => _ end) => destruct x
  | |- ok _ _ _ => first [apply ok_safe; solve [returns] | apply ok_total; solve [returns]]
  end.

(** With a valid active job, job termination returns. *)
Lemma findNextJob_returns env i n : ok i n (findNextJob env).
Proof.
  unfold findNextJob. repeat ok_step.
Qed.

(** * Job termination with no matching branch *)



(** * The iteration loop *)

(** [execute] returns, whatever the scheduler state, and leaves the jobs alone. *)
Lemma execute_run s :
  ∃ s', execute s = Some (tt, s') ∧ jobs s' = jobs s.
Proof.
  unfold execute. repeat mstep.
  destruct (schedulerState s); simpl;
    try destruct (negb (startupScriptEmpty (cfg s)) && negb (startupScriptValid (cfg s)));
    try destruct (negb (shutdownScriptEmpty (cfg s)) && negb (shutdownScriptValid (cfg s)));
    (eexists; split; [reflexivity|done]).
Qed.

(** C10.  [start] returns.  It first sets the state of every job to idle and
    initialises the loop, which gives a scheduler [s1]; the first iteration then
    runs on [s1], where no job is in a state left over from an earlier session,
    and it leaves the jobs as they are in [s1]. *)
Theorem start_resets_job_states env s :
  ∃ s1 s',
    exec (forEachJob (fun _ j => setState SCHEDJOB_IDLE j);; init env) s = Some s1
    ∧ jobs s1 = setState SCHEDJOB_IDLE <$> jobs s
    ∧ Forall (fun j => state j = SCHEDJOB_IDLE) (jobs s1)
    ∧ exec (iterate env) s1 = Some s'
    ∧ exec (start env) s = Some s'
    ∧ jobs s' = jobs s1.
Proof.
  pose (s1 := ms_setIterationSetup true
                (ms_setTimerInterval 10
                   (ms_setTimerState RUN_WAKEUP
                      (ms_setIterationSetup false
                         (ms_setPreemptiveShutdownWakeupTime (Some (now env))
                            (ms_setJobs (imap (fun _ j => setState SCHEDJOB_IDLE j) (jobs s)) s)))))).
  assert (Hs1 : (forEachJob (fun _ j => setState SCHEDJOB_IDLE j);; init env) s = Some (tt, s1))
    by reflexivity.
  assert (Hjobs : jobs s1 = setState SCHEDJOB_IDLE <$> jobs s)
    by (simpl; apply (imap_const (setState SCHEDJOB_IDLE))).
  destruct (execute_run (ms_setTrace (trace s1 ++ [Log "Scheduler is awake."])
                           (ms_setPreemptiveShutdownWakeupTime None
                              (ms_setIterationSetup false s1)))) as (s2 & Hex & Hj2).
  assert (Hit : ∃ s', iterate env s1 = Some (tt, s') ∧ jobs s' = jobs s1).
  { unfold iterate, runSchedulerIteration. repeat mstep.
    unfold wakeUpScheduler. repeat mstep.
    repeat mstep. mcall Hex. repeat mstep.
    destruct (iterationSetup s2); simpl; repeat mstep.
    - destruct (timerInterval s2 <? 0);
        (eexists; split; [reflexivity | simpl; rewrite Hj2; reflexivity]).
    - destruct (updatePeriodMs (cfg s2) <? 0);
        (eexists; split; [reflexivity | simpl; rewrite Hj2; reflexivity]). }
  destruct Hit as (s' & Hit & Hj').
  exists s1, s'. split; [apply (exec_run _ _ _ _ Hs1)|].
  split; [exact Hjobs|]. split.
  { rewrite Hjobs. apply Forall_fmap, Forall_forall. intros j _. reflexivity. }
  split; [apply (exec_run _ _ _ _ Hit)|]. split; [|exact Hj'].
  unfold start, exec.
  rewrite <- (run_assoc (forEachJob _) (fun _ => init env) (fun _ => iterate env)).
  rewrite (run_bind _ _ _ _ _ Hs1), Hit. reflexivity.
Qed.

(** [runSchedulerIteration] in the phase [RUN_NOTHING]: the interval is set to -1,
    and then, no handler having set up the next iteration, to the update period,
    which is what the tick returns. *)
Lemma runSchedulerIteration_RUN_NOTHING env s :
  timerState s = RUN_NOTHING ->
  runSchedulerIteration env s
  = Some (updatePeriodMs (cfg s),
          ms_setTimerInterval (updatePeriodMs (cfg s))
            (ms_setTimerInterval (-1) (ms_setIterationSetup false s))).
Proof.
  intros Ht. unfold runSchedulerIteration. repeat mstep. rewrite Ht.
  repeat mstep. reflexivity.
Qed.

(** With an update period that is not negative, the timer is armed again in the
    phase [RUN_NOTHING], for the same phase. *)
Lemma iterationTimeout_RUN_NOTHING env s :
  timerState s = RUN_NOTHING ->
  0 <= updatePeriodMs (cfg s) ->
  ∃ s', exec (iterationTimeout env) s = Some s'
    ∧ iterationTimer s' = Some (updatePeriodMs (cfg s))
    ∧ timerState s' = RUN_NOTHING.
Proof.
  intros Ht Hp. unfold iterationTimeout, iterate, exec. repeat mstep.
  erewrite run_bind by (apply runSchedulerIteration_RUN_NOTHING; exact Ht). simpl.
  destruct (Z.ltb_spec (updatePeriodMs (cfg s)) 0) as [Hlt|_]; [lia|].
  eexists. split; [reflexivity|]. simpl. auto.
Qed.

(** C8.  A stopped scheduler with the update period of one second, in the phase
    [RUN_NOTHING]: the tick returns 1000, not a negative interval, and when the
    iteration timer fires, [iterate] arms it again with 1000 ms. *)
Theorem RUN_NOTHING_keeps_iterating :
  fst <$> runSchedulerIteration (sampleEnv false 0 CAPTURE_IDLE) stoppedScheduler
  = Some 1000
  ∧ iterationTimer <$> exec (iterationTimeout (sampleEnv false 0 CAPTURE_IDLE)) stoppedScheduler
    = Some (Some 1000)
  ∧ timerState <$> exec (iterationTimeout (sampleEnv false 0 CAPTURE_IDLE)) stoppedScheduler
    = Some RUN_NOTHING.
Proof. repeat split; reflexivity. Qed.

(** * The capture inactivity watchdog *)

(** C1.  There is an active job and the system status check of
    [checkJobStageEplogue] has passed, leaving [s1], in which the active job is
    at the capture stage; the current operation is older than the capture
    inactivity timeout and the capture module reports that it is idle.  Then the
    capture failure counter is incremented, and
    - while the counter does not exceed the maximum, the capture start command
      is issued again (and nothing else is done to the jobs);
    - once it exceeds the maximum, the job is set to [SCHEDJOB_ABORTED] and
      [findNextJob] takes over in that state [s2], no start command having been
      issued, and returns. *)
Theorem capture_inactivity_watchdog env s s1 i j :
  activeJob s ≠ None ->
  checkStatus env s = Some (true, s1) ->
  activeJobIs s1 i j ->
  stage j = SCHEDSTAGE_CAPTURING ->
  CAPTURE_INACTIVITY_TIMEOUT (cfg s1) < currentOperationMsec env ->
  captureStatus env = CAPTURE_IDLE ->
  (captureFailureCount s1 + 1 <= maxFailureAttempts (cfg s1) ->
     ∃ s', checkJobStageEplogue env s = Some (tt, s')
       ∧ captureFailureCount s' = captureFailureCount s1 + 1
       ∧ trace s' = trace s1 ++ [ProcessGuidingTimer;
                                 Debug "capture module timed out. Restarting request...";
                                 StartCapture false]
       ∧ jobs s' = jobs s1
       ∧ activeJob s' = Some i)
  ∧ (maxFailureAttempts (cfg s1) < captureFailureCount s1 + 1 ->
     ∃ s2 s', checkJobStageEplogue env s = findNextJob env s2
       ∧ captureFailureCount s2 = captureFailureCount s1 + 1
       ∧ trace s2 = trace s1 ++ [ProcessGuidingTimer;
                                 Log ("Warning: job " +:+ quoted (name j)
                                      +:+ " capture procedure failed, marking aborted.")]
       ∧ jobs s2 = alter (setState SCHEDJOB_ABORTED) i (jobs s1)
       ∧ activeJob s2 = Some i
       ∧ findNextJob env s2 = Some (tt, s')).
Proof.
  intros Hactive Hcheck [Ha Hj] Hstage Htimeout Hidle.
  assert (Hrun : checkJobStageEplogue env s
                 = (emit ProcessGuidingTimer;;
                    do retry <- increaseCaptureFailureCount;
                    if retry then
                      qCDebug "capture module timed out. Restarting request...";;
                      emit (StartCapture false)
                    else
                      appendLogText ("Warning: job " +:+ quoted (name j)
                                     +:+ " capture procedure failed, marking aborted.");;
                      updateActiveJob (setState SCHEDJOB_ABORTED);;
                      findNextJob env) s1).
  { unfold checkJobStageEplogue. mstep.
    rewrite (bool_decide_eq_false_2 _ Hactive).
    rewrite (run_bind _ _ _ _ _ Hcheck). simpl.
    repeat mstep. rewrite Ha. simpl. mcall theActiveJob_run. repeat mstep.
    rewrite Hstage, Hidle. simpl.
    rewrite (proj2 (Z.ltb_lt _ _) Htimeout). reflexivity. }
  rewrite Hrun. unfold increaseCaptureFailureCount, increaseFailureCount.
  split; intros Hcount; repeat mstep.
  - rewrite (proj2 (Z.leb_le _ _) Hcount). repeat mstep.
    eexists. split; [reflexivity|]. simpl.
    split; [reflexivity|]. split; [rewrite <- !app_assoc; reflexivity|]. auto.
  - rewrite (proj2 (Z.leb_gt _ _) Hcount). repeat mstep.
    mcall updateActiveJob_run.
    match goal with |- ∃ s2 s', findNextJob env ?s0 = _ ∧ _ => set (s2 := s0) end.
    destruct (findNextJob_returns env i (length (jobs s2)) s2) as ([] & s' & Hnext & _).
    { repeat split; [exact Ha|]. simpl. rewrite length_alter.
      apply lookup_lt_is_Some_1. eauto. }
    exists s2, s'. split; [reflexivity|]. split; [reflexivity|].
    split; [simpl; rewrite <- !app_assoc; reflexivity|]. auto.
Qed.

Lemma capture_inactivity_watchdog_witness :
  (activeJob (capturingScheduler FINISH_SEQUENCE 1 0) ≠ None
   ∧ checkStatus (sampleEnv false 20000 CAPTURE_IDLE) (capturingScheduler FINISH_SEQUENCE 1 0)
     = Some (true, checkedScheduler FINISH_SEQUENCE 1 0)
   ∧ CAPTURE_INACTIVITY_TIMEOUT (cfg (checkedScheduler FINISH_SEQUENCE 1 0)) < 20000
   ∧ ∃ s', checkJobStageEplogue (sampleEnv false 20000 CAPTURE_IDLE)
             (capturingScheduler FINISH_SEQUENCE 1 0) = Some (tt, s')
       ∧ captureFailureCount s' = 1
       ∧ activeJob s' = Some 0%nat)
  ∧ (checkStatus (sampleEnv false 20000 CAPTURE_IDLE) (capturingScheduler FINISH_SEQUENCE 1 3)
     = Some (true, checkedScheduler FINISH_SEQUENCE 1 3)
     ∧ maxFailureAttempts (cfg (checkedScheduler FINISH_SEQUENCE 1 3)) < 3 + 1
     ∧ ∃ s2 s', checkJobStageEplogue (sampleEnv false 20000 CAPTURE_IDLE)
                  (capturingScheduler FINISH_SEQUENCE 1 3)
                = findNextJob (sampleEnv false 20000 CAPTURE_IDLE) s2
         ∧ stateOf s2 0 = Some SCHEDJOB_ABORTED
         ∧ findNextJob (sampleEnv false 20000 CAPTURE_IDLE) s2 = Some (tt, s')).
Proof.
  split.
  - split; [discriminate|]. split; [reflexivity|]. split; [reflexivity|].
    destruct (capture_inactivity_watchdog (sampleEnv false 20000 CAPTURE_IDLE)
                (capturingScheduler FINISH_SEQUENCE 1 0) (checkedScheduler FINISH_SEQUENCE 1 0)
                0%nat
                (sampleJob "M31" FINISH_SEQUENCE 1 0 SCHEDJOB_BUSY SCHEDSTAGE_CAPTURING))
      as [Hretry _];
      [discriminate | reflexivity | split; reflexivity | reflexivity | reflexivity | reflexivity |].
    destruct Hretry as (s' & Hrun & Hcount & _ & _ & Ha); [simpl; lia|].
    exists s'. auto.
  - split; [reflexivity|]. split; [reflexivity|].
    destruct (capture_inactivity_watchdog (sampleEnv false 20000 CAPTURE_IDLE)
                (capturingScheduler FINISH_SEQUENCE 1 3) (checkedScheduler FINISH_SEQUENCE 1 3)
                0%nat
                (sampleJob "M31" FINISH_SEQUENCE 1 0 SCHEDJOB_BUSY SCHEDSTAGE_CAPTURING))
      as [_ Habort];
      [discriminate | reflexivity | split; reflexivity | reflexivity | reflexivity | reflexivity |].
    destruct Habort as (s2 & s' & Hrun & _ & _ & Hjobs & _ & Hnext); [simpl; lia|].
    exists s2, s'. split; [exact Hrun|]. split; [|exact Hnext].
    unfold stateOf. rewrite Hjobs. reflexivity.
Defined.

(** * Repeating jobs *)

(** [evaluateJobs(true)] when job progress is not remembered: the greedy scheduler
    is run and no job is selected. *)
Lemma evaluateJobs_only env s :
  rememberJobProgress (cfg s) = false ->
  jobs s ≠ [] ->
  evaluateJobs env true s
  = (modify (ms_setJobs (imap (fun k job => applySchedule (greedySchedule env (jobs s) k) job)
                           (jobs s)));;
     modify (ms_setScheduledJob (greedyScheduledJob env (jobs s)));;
     qCDebug "Ekos finished evaluating jobs, no job selection required.";;
     emit JobsUpdated) s.
Proof.
  intros Hrem Hne. unfold evaluateJobs. mstep.
  rewrite (bool_decide_eq_false_2 _ Hne). mstep. rewrite Hrem. repeat mstep.
  reflexivity.
Qed.

Lemma stopCurrentJobAction_active i j s :
  activeJob s = Some i ->
  jobs s !! i = Some j ->
  stopCurrentJobAction s
  = (qCDebug ("Job " +:+ quoted (name j) +:+ " is stopping current action...");;
     match stage j with
     | SCHEDSTAGE_IDLE => ret tt
     | SCHEDSTAGE_SLEWING => emit MountAbort
     | SCHEDSTAGE_FOCUSING => emit FocusAbort
     | SCHEDSTAGE_ALIGNING => emit AlignAbort
     | SCHEDSTAGE_CAPTURING => emit CaptureAbort
     | _ => ret tt
     end;;
     updateJobStage SCHEDSTAGE_IDLE;;
     emit StopGuiding) s.
Proof.
  intros Ha Hj. unfold stopCurrentJobAction. mstep. rewrite Ha.
  rewrite run_assoc. mcall deref_run. rewrite !run_assoc, !run_debug.
  rewrite run_assoc. reflexivity.
Qed.

Lemma lookup_ne_nil {A : Type} (l : list A) i x : l !! i = Some x -> l ≠ [].
Proof. intros H ->. discriminate. Qed.

(** The end of a batch with more than one repeat remaining: one repeat less, and
    the pipeline is restarted. *)
Lemma repeat_batch_restarts env i r s :
  repeating i r s ->
  1 < r ->
  ∃ s' evs, captureBatchEnds env s = Some (tt, s')
    ∧ repeating i (r - 1) s'
    ∧ trace s' = trace s ++ evs
    ∧ (List.filter isStartCommand evs = [StartAstrometry]
       ∨ List.filter isStartCommand evs = [StartCapture false]).
Proof.
  intros (Ha & Hrun & Hrem & Hlead & Hpre & j & Hj & Hcc & Hr & Hst) Hr1.
  unfold captureBatchEnds. mcall updateJobStage_run.
  set (j0 := setStage SCHEDSTAGE_CAPTURING j).
  assert (Hj0 : alter (setStage SCHEDSTAGE_CAPTURING) i (jobs s) !! i = Some j0)
    by (rewrite list_lookup_alter_eq, Hj; reflexivity).
  unfold setCaptureStatus. mstep. rewrite Ha. mcall deref_run. mstep.
  rewrite Hst. simpl. mstep. mcall updateActiveJob_run.
  set (j1 := setState SCHEDJOB_COMPLETE j0).
  match goal with |- context [ms_setJobs ?l _] => assert (Hj1 : l !! i = Some j1)
    by (rewrite list_lookup_alter_eq, Hj0; reflexivity) end.
  unfold findNextJob. mstep. rewrite Hrun. simpl.
  unfold resetAlignFailureCount, resetGuideFailureCount, resetFocusFailureCount,
    resetCaptureFailureCount, increaseCaptureBatch.
  repeat mstep. mcall theActiveJob_run. repeat mstep.
  rewrite Hcc, Hr, Hrem. simpl.
  rewrite (proj2 (Z.leb_gt _ _)) by lia.
  rewrite (proj2 (Z.ltb_lt 0 r)) by lia.
  rewrite (proj2 (Z.ltb_lt 1 r)) by lia. simpl.
  repeat mstep.
  mcall updateActiveJob_run.
  match goal with |- context [ms_setJobs (alter ?f i ?l) _] =>
    assert (Hj2 : alter f i l !! i = Some (f j1))
      by (rewrite list_lookup_alter_eq, Hj1; reflexivity) end.
  mcall updateActiveJob_run.
  match goal with |- context [ms_setJobs (alter ?f i ?l) _] =>
    assert (Hj3 : alter f i l !! i = Some (f (setRepeatsRemaining (r - 1) j1)))
      by (rewrite list_lookup_alter_eq, Hj2; reflexivity) end.
  mcall updateActiveJob_run.
  match goal with |- context [ms_setJobs (alter ?f i ?l) _] =>
    assert (Hj4 : alter f i l !! i
                  = Some (f (setCompletedIterations (completedIterations j + 1)
                               (setRepeatsRemaining (r - 1) j1))))
      by (rewrite list_lookup_alter_eq, Hj3; reflexivity) end.
  repeat mstep. rewrite Ha.
  erewrite run_same by (eapply (executeJob_due env _ i); simpl;
                        [exact Ha | exact Hj4 | discriminate | reflexivity | exact Hlead | exact Hpre]).
  simpl. rewrite Hcc. simpl. repeat mstep.
  mcall updateActiveJob_run. repeat mstep. mcall setupNextIteration_run. repeat mstep.
  match goal with |- context [ms_setJobs (alter ?f i ?l) _] =>
    assert (Hj5 : alter f i l !! i
                  = Some (f (setStartupTime None
                               (setCompletedIterations (completedIterations j + 1)
                                  (setRepeatsRemaining (r - 1) j1)))))
      by (rewrite list_lookup_alter_eq, Hj4; reflexivity) end.
  mcall theActiveJob_run.
  destruct (uses (stepPipeline j) USE_ALIGN && forceAlignmentBeforeJob (cfg s));
    simpl; repeat mstep; mcall updateJobStage_run; repeat mstep;
    rewrite Hcc; simpl; mstep; rewrite setupNextIteration_run;
    (eexists; eexists; split; [reflexivity|]; unfold repeating; simpl;
     split; [repeat (split; [assumption|]);
             eexists; split; [rewrite list_lookup_alter_eq, Hj5; reflexivity|];
             simpl; auto|];
     split; [rewrite <- ?app_assoc; reflexivity|]; simpl; auto).
Qed.

(** The end of the batch with one repeat remaining: no repeats are left, and
    the run of the job is over. *)
Lemma repeat_batch_finalizes env i s :
  repeating i 1 s ->
  ∃ s' evs, captureBatchEnds env s = Some (tt, s')
    ∧ finalized env i s'
    ∧ trace s' = trace s ++ evs
    ∧ List.filter isStartCommand evs = [].
Proof.
  intros (Ha & Hrun & Hrem & Hlead & Hpre & j & Hj & Hcc & Hr & Hst).
  unfold captureBatchEnds. mcall updateJobStage_run.
  set (j0 := setStage SCHEDSTAGE_CAPTURING j).
  assert (Hj0 : alter (setStage SCHEDSTAGE_CAPTURING) i (jobs s) !! i = Some j0)
    by (rewrite list_lookup_alter_eq, Hj; reflexivity).
  unfold setCaptureStatus. mstep. rewrite Ha. mcall deref_run. mstep.
  rewrite Hst. simpl. mstep. mcall updateActiveJob_run.
  set (j1 := setState SCHEDJOB_COMPLETE j0).
  match goal with |- context [ms_setJobs ?l _] => assert (Hj1 : l !! i = Some j1)
    by (rewrite list_lookup_alter_eq, Hj0; reflexivity) end.
  unfold findNextJob. mstep. rewrite Hrun. simpl.
  unfold resetAlignFailureCount, resetGuideFailureCount, resetFocusFailureCount,
    resetCaptureFailureCount.
  repeat mstep. mcall theActiveJob_run. repeat mstep.
  rewrite Hcc, Hr, Hrem. simpl.
  change (1 <=? 1) with true. change (0 <? 1) with true. simpl.
  repeat mstep.
  mcall updateActiveJob_run.
  match goal with |- context [ms_setJobs (alter ?f i ?l) _] =>
    assert (Hj2 : alter f i l !! i = Some (f j1))
      by (rewrite list_lookup_alter_eq, Hj1; reflexivity) end.
  mcall updateActiveJob_run.
  match goal with |- context [ms_setJobs (alter ?f i ?l) _] =>
    assert (Hj3 : alter f i l !! i = Some (f (setRepeatsRemaining (1 - 1) j1)))
      by (rewrite list_lookup_alter_eq, Hj2; reflexivity) end.
  mcall updateActiveJob_run.
  match goal with |- context [ms_setJobs (alter ?f i ?l) _] =>
    set (l4 := alter f i l);
    assert (Hj4 : l4 !! i
                  = Some (f (setCompletedIterations (completedIterations j + 1)
                               (setRepeatsRemaining (1 - 1) j1))))
      by (unfold l4; rewrite list_lookup_alter_eq, Hj3; reflexivity) end.
  mcall markDuplicatesIdle_run.
  match goal with |- context [ms_setJobs (imap ?f l4) _] =>
    set (l5 := imap f l4);
    assert (Hj5 : ∃ j5, l5 !! i = Some j5 ∧ repeatsRemaining j5 = 0
                        ∧ stage j5 = SCHEDSTAGE_CAPTURING)
  end.
  { unfold l5. rewrite list_lookup_imap, Hj4. simpl.
    rewrite bool_decide_eq_true_2 by done. simpl. eexists. split; [reflexivity|].
    simpl. split; [lia | reflexivity]. }
  destruct Hj5 as (j5 & Hj5 & Hr5 & Hs5).
  erewrite run_same by (apply evaluateJobs_only; simpl; [exact Hrem | exact (lookup_ne_nil _ _ _ Hj5)]).
  simpl. repeat mstep.
  match goal with |- context [ms_setJobs (imap ?f l5) _] =>
    set (l6 := imap f l5);
    assert (Hj6 : ∃ j6, l6 !! i = Some j6 ∧ repeatsRemaining j6 = 0
                        ∧ stage j6 = SCHEDSTAGE_CAPTURING)
  end.
  { unfold l6. rewrite list_lookup_imap, Hj5. simpl. eexists. split; [reflexivity|].
    simpl. auto. }
  destruct Hj6 as (j6 & Hj6 & Hr6 & Hs6).
  rewrite Ha. rewrite run_assoc. mcall deref_run. mstep.
  rewrite Hr6. change (0 =? 0) with true. simpl.
  erewrite run_same by (apply (stopCurrentJobAction_active i j6); simpl; assumption).
  simpl. rewrite Hs6. repeat mstep. mcall updateJobStage_run. repeat mstep.
  rewrite Ha.
  assert (Hj7 : alter (setStage SCHEDSTAGE_IDLE) i l6 !! i = Some (setStage SCHEDSTAGE_IDLE j6))
    by (rewrite list_lookup_alter_eq, Hj6; reflexivity).
  mcall deref_run. repeat mstep.
  change (canCountCaptures env (setStage SCHEDSTAGE_IDLE j6)) with (canCountCaptures env j6).
  destruct (canCountCaptures env j6) eqn:Hcount; simpl; repeat mstep.
  - mcall setActiveJob_run. rewrite setupNextIteration_run.
    eexists. eexists. split; [reflexivity|]. unfold finalized. simpl.
    split; [split; [reflexivity|split; [reflexivity|]]|].
    + eexists. split; [exact Hj7|]. simpl. split; [exact Hr6|]. split; [reflexivity|].
      change (canCountCaptures env (setStage SCHEDSTAGE_IDLE j6))
        with (canCountCaptures env j6). congruence.
    + split; [rewrite <- ?app_assoc; reflexivity|]. reflexivity.
  - mcall updateActiveJob_run. mcall setActiveJob_run. rewrite setupNextIteration_run.
    eexists. eexists. split; [reflexivity|]. unfold finalized. simpl.
    split; [split; [reflexivity|split; [reflexivity|]]|].
    + eexists. split; [rewrite list_lookup_alter_eq, Hj7; reflexivity|]. simpl.
      split; [exact Hr6|]. split; reflexivity.
    + split; [rewrite <- ?app_assoc; reflexivity|]. reflexivity.
Qed.

Lemma captureBatchesEnd_app envs1 envs2 s :
  captureBatchesEnd (envs1 ++ envs2) s
  = (captureBatchesEnd envs1;; captureBatchesEnd envs2) s.
Proof.
  revert s. induction envs1 as [|env envs1 IH]; intros s; simpl.
  - reflexivity.
  - rewrite run_assoc. apply run_ext. intros [] s1 _. apply IH.
Qed.

(** While more repeats remain than batches end, the job keeps repeating. *)
Lemma repeat_batches_restart envs : ∀ i r s,
  repeating i r s ->
  Z.of_nat (length envs) < r ->
  ∃ s', captureBatchesEnd envs s = Some (tt, s')
    ∧ repeating i (r - Z.of_nat (length envs)) s'.
Proof.
  induction envs as [|env envs IH]; intros i r s Hrep Hlen.
  - exists s. split; [reflexivity|]. simpl. rewrite Z.sub_0_r. exact Hrep.
  - rewrite length_cons, Nat2Z.inj_succ in Hlen |- *.
    destruct (repeat_batch_restarts env i r s Hrep) as (s1 & evs & Hrun & Hrep1 & _);
      [lia|].
    destruct (IH i (r - 1) s1 Hrep1) as (s' & Hrun' & Hrep'); [lia|].
    exists s'. split.
    + simpl. rewrite (run_bind _ _ _ _ _ Hrun). exact Hrun'.
    + replace (r - Z.succ (Z.of_nat (length envs)))
        with (r - 1 - Z.of_nat (length envs)) by lia.
      exact Hrep'.
Qed.

(** C2 (amended).  A job repeats [N] times, [N >= 1]; it is the active job, busy,
    in a running scheduler that does not remember job progress.  [N] capture
    batches end, one in each of the worlds [envs], and nothing else happens.
    Before the last of them the job is still repeating: after [k < N] batches
    it is the active job, busy, with [N - k] repeats remaining, each end of a
    batch with more than one repeat remaining having decremented the count and
    restarted the pipeline.  The end of the batch with one repeat remaining
    decrements the count to zero and starts nothing: the job is no longer
    active, it is at rest at the idle stage, it is complete if its captures
    cannot be counted from storage, and the queue is re-evaluated next. *)
Theorem repeat_job_runs_N_batches envs i s :
  envs ≠ [] ->
  repeating i (Z.of_nat (length envs)) s ->
  (∀ k, (k < length envs)%nat ->
     ∃ s', exec (captureBatchesEnd (take k envs)) s = Some s'
       ∧ repeating i (Z.of_nat (length envs - k)) s')
  ∧ (∀ env s1 r, repeating i r s1 -> 1 < r ->
       ∃ s' evs, exec (captureBatchEnds env) s1 = Some s'
         ∧ repeating i (r - 1) s'
         ∧ trace s' = trace s1 ++ evs
         ∧ (List.filter isStartCommand evs = [StartAstrometry]
            ∨ List.filter isStartCommand evs = [StartCapture false]))
  ∧ (∀ env s1, repeating i 1 s1 ->
       ∃ s' evs, exec (captureBatchEnds env) s1 = Some s'
         ∧ finalized env i s'
         ∧ trace s' = trace s1 ++ evs
         ∧ List.filter isStartCommand evs = [])
  ∧ (∃ s' env, last envs = Some env
       ∧ exec (captureBatchesEnd envs) s = Some s'
       ∧ finalized env i s').
Proof.
  intros Hne Hrep. split; [|split; [|split]].
  - intros k Hk.
    destruct (repeat_batches_restart (take k envs) i _ s Hrep) as (s' & Hrun & Hrep').
    { rewrite length_take. lia. }
    exists s'. split; [apply (exec_run _ _ _ _ Hrun)|].
    rewrite length_take in Hrep'.
    replace (Z.of_nat (length envs - k))
      with (Z.of_nat (length envs) - Z.of_nat (k `min` length envs)) by lia.
    exact Hrep'.
  - intros env s1 r H1 Hr.
    destruct (repeat_batch_restarts env i r s1 H1 Hr) as (s' & evs & Hrun & H).
    exists s', evs. split; [apply (exec_run _ _ _ _ Hrun) | exact H].
  - intros env s1 H1.
    destruct (repeat_batch_finalizes env i s1 H1) as (s' & evs & Hrun & H).
    exists s', evs. split; [apply (exec_run _ _ _ _ Hrun) | exact H].
  - destruct (exists_last Hne) as (front & env & ->).
    rewrite length_app in Hrep. simpl in Hrep.
    destruct (repeat_batches_restart front i _ s Hrep) as (s1 & Hrun1 & Hrep1); [lia|].
    replace (Z.of_nat (length front + 1) - Z.of_nat (length front)) with 1 in Hrep1 by lia.
    destruct (repeat_batch_finalizes env i s1 Hrep1) as (s' & evs & Hrun & Hfin & _).
    exists s', env. split; [apply last_snoc|]. split; [|exact Hfin].
    unfold exec. rewrite captureBatchesEnd_app, (run_bind _ _ _ _ _ Hrun1). simpl.
    rewrite (run_bind _ _ _ _ _ Hrun). reflexivity.
Qed.

(** C2, as stated, fails: the end of the batch with one repeat remaining
    decrements the count, and does not restart the pipeline. *)
Lemma last_repeat_does_not_restart :
  ¬ restartsWhileRepeatsRemain (sampleEnv false 0 CAPTURE_COMPLETE)
      (capturingScheduler FINISH_REPEAT 1 0).
Proof.
  intros H. destruct (H 0%nat 1) as (s' & Hrun & Hrep); [|lia|].
  - repeat (split; [reflexivity || discriminate|]).
    eexists. repeat (split; [reflexivity|]). reflexivity.
  - vm_compute in Hrun. injection Hrun as <-.
    destruct Hrep as [Hactive _]. discriminate.
Qed.

Lemma repeat_job_runs_N_batches_witness :
  repeating 0 3 (capturingScheduler FINISH_REPEAT 3 0)
  ∧ ∃ s' env, exec (captureBatchesEnd [sampleEnv false 0 CAPTURE_COMPLETE;
                                        sampleEnv false 0 CAPTURE_COMPLETE;
                                        sampleEnv true 0 CAPTURE_COMPLETE])
                (capturingScheduler FINISH_REPEAT 3 0) = Some s'
      ∧ finalized env 0 s'.
Proof.
  assert (H : repeating 0 3 (capturingScheduler FINISH_REPEAT 3 0)).
  { repeat (split; [reflexivity || discriminate|]).
    eexists. repeat (split; [reflexivity|]). reflexivity. }
  split; [exact H|].
  destruct (repeat_job_runs_N_batches
              [sampleEnv false 0 CAPTURE_COMPLETE; sampleEnv false 0 CAPTURE_COMPLETE;
               sampleEnv true 0 CAPTURE_COMPLETE]
              0%nat (capturingScheduler FINISH_REPEAT 3 0))
    as (_ & _ & _ & s' & env & _ & Hrun & Hfin); [discriminate | exact H |].
  exists s', env. auto.
Defined.

(** * Looping jobs *)




(** * Duplicates of a completed job *)

(** C4, as stated, fails: a job whose sequence stores its frames on the device
    is set to complete, not idle, when it completes. *)
Lemma findNextJob_sets_uncountable_job_complete :
  ¬ marksJobAndDuplicatesIdle (sampleEnv true 0 CAPTURE_COMPLETE) duplicatesScheduler.
Proof.
  intros H.
  destruct (H 0%nat (sampleJob "M31" FINISH_SEQUENCE 1 0 SCHEDJOB_COMPLETE SCHEDSTAGE_CAPTURING))
    as (s' & Hrun & Hidle); [split; reflexivity | reflexivity | reflexivity |].
  vm_compute in Hrun. injection Hrun as <-.
  specialize (Hidle 0%nat _ eq_refl (or_introl eq_refl)). vm_compute in Hidle. discriminate.
Qed.

(** C4 (amended).  When the active job completes ([findNextJob] is reached on a
    scheduler that is not paused, the job being neither in error, aborted nor
    idle), its completion condition is [FINISH_SEQUENCE] and "remember job
    progress" is on, then [findNextJob] returns and, in that same pass,
    - every other job that is a duplicate of the active job is idle;
    - the active job itself is idle when its captures can be counted from
      storage, and complete when they cannot;
    - the jobs that are not duplicates are as before;
    and there is no active job any more, the next iteration being a
    re-evaluation of the queue. *)
Theorem findNextJob_sequence_marks_duplicates_idle env s i j :
  schedulerState s ≠ SCHEDULER_PAUSED ->
  activeJobIs s i j ->
  state j ≠ SCHEDJOB_ERROR -> state j ≠ SCHEDJOB_ABORTED -> state j ≠ SCHEDJOB_IDLE ->
  completionCondition j = FINISH_SEQUENCE ->
  rememberJobProgress (cfg s) = true ->
  ∃ s', findNextJob env s = Some (tt, s')
    ∧ (∀ k a, jobs s !! k = Some a -> k ≠ i -> isDuplicateOf a j = true ->
              stateOf s' k = Some SCHEDJOB_IDLE)
    ∧ stateOf s' i = Some (if canCountCaptures env j then SCHEDJOB_IDLE else SCHEDJOB_COMPLETE)
    ∧ (∀ k a, jobs s !! k = Some a -> k ≠ i -> isDuplicateOf a j = false ->
              jobs s' !! k = Some a)
    ∧ activeJob s' = None
    ∧ timerState s' = RUN_SCHEDULER.
Proof.
  intros Hp [Ha Hj] H1 H2 H3 Hcc Hrem.
  unfold findNextJob. mstep.
  rewrite (bool_decide_eq_false_2 _ Hp).
  unfold resetAlignFailureCount, resetGuideFailureCount, resetFocusFailureCount,
    resetCaptureFailureCount, resetCaptureBatch.
  repeat mstep. mcall theActiveJob_run. repeat mstep.
  rewrite !(bool_decide_eq_false_2 (state j = _)) by done.
  rewrite (bool_decide_eq_true_2 _ Hcc). simpl.
  repeat mstep. rewrite Hrem. mstep. mcall markDuplicatesIdle_run. repeat mstep.
  set (mark := fun (k : nat) (a_job : SchedulerJob) =>
                 if bool_decide (k = i) || isDuplicateOf a_job j
                 then setState SCHEDJOB_IDLE a_job else a_job).
  assert (Hi : imap mark (jobs s) !! i = Some (setState SCHEDJOB_IDLE j)).
  { rewrite list_lookup_imap, Hj. unfold mark. simpl.
    rewrite bool_decide_eq_true_2 by done. reflexivity. }
  mcall updateJobStage_run.
  assert (Hi' : alter (setStage SCHEDSTAGE_IDLE) i (imap mark (jobs s)) !! i
                = Some (setStage SCHEDSTAGE_IDLE (setState SCHEDJOB_IDLE j))).
  { rewrite list_lookup_alter_eq, Hi. reflexivity. }
  mcall theActiveJob_run.
  change (canCountCaptures env (setStage SCHEDSTAGE_IDLE (setState SCHEDJOB_IDLE j)))
    with (canCountCaptures env j).
  assert (Hother : ∀ k, k ≠ i ->
            alter (setStage SCHEDSTAGE_IDLE) i (imap mark (jobs s)) !! k
            = mark k <$> jobs s !! k).
  { intros k Hk. rewrite list_lookup_alter_ne by done. apply list_lookup_imap. }
  destruct (canCountCaptures env j); simpl.
  - mstep. mcall setActiveJob_run. rewrite setupNextIteration_run.
    eexists. split; [reflexivity|]. unfold stateOf. simpl.
    split; [|split; [|split]].
    + intros k a Hk Hne Hdup. rewrite Hother, Hk by done. unfold mark. simpl.
      rewrite Hdup, orb_true_r. reflexivity.
    + rewrite Hi'. reflexivity.
    + intros k a Hk Hne Hdup. rewrite Hother, Hk by done. unfold mark. simpl.
      rewrite Hdup, bool_decide_eq_false_2 by done. reflexivity.
    + auto.
  - mstep. mcall updateActiveJob_run. mcall setActiveJob_run. rewrite setupNextIteration_run.
    eexists. split; [reflexivity|]. unfold stateOf. simpl.
    split; [|split; [|split]].
    + intros k a Hk Hne Hdup. rewrite list_lookup_alter_ne, Hother, Hk by done.
      unfold mark. simpl. rewrite Hdup, orb_true_r. reflexivity.
    + rewrite list_lookup_alter_eq, Hi'. reflexivity.
    + intros k a Hk Hne Hdup. rewrite list_lookup_alter_ne, Hother, Hk by done.
      unfold mark. simpl. rewrite Hdup, bool_decide_eq_false_2 by done. reflexivity.
    + auto.
Qed.

Lemma findNextJob_sequence_marks_duplicates_idle_witness :
  schedulerState duplicatesScheduler ≠ SCHEDULER_PAUSED
  ∧ activeJobIs duplicatesScheduler 0
      (sampleJob "M31" FINISH_SEQUENCE 1 0 SCHEDJOB_COMPLETE SCHEDSTAGE_CAPTURING)
  ∧ ∃ s', findNextJob (sampleEnv true 0 CAPTURE_COMPLETE) duplicatesScheduler = Some (tt, s')
      ∧ stateOf s' 1 = Some SCHEDJOB_IDLE
      ∧ stateOf s' 0 = Some SCHEDJOB_COMPLETE
      ∧ activeJob s' = None
      ∧ timerState s' = RUN_SCHEDULER.
Proof.
  split; [discriminate|]. split; [split; reflexivity|].
  destruct (findNextJob_sequence_marks_duplicates_idle
              (sampleEnv true 0 CAPTURE_COMPLETE) duplicatesScheduler 0%nat
              (sampleJob "M31" FINISH_SEQUENCE 1 0 SCHEDJOB_COMPLETE SCHEDSTAGE_CAPTURING))
    as (s' & Hrun & Hdup & Hself & _ & Ha & Ht);
    [discriminate | split; reflexivity | discriminate | discriminate | discriminate
    | reflexivity | reflexivity |].
  exists s'. split; [exact Hrun|]. split; [|split; [exact Hself|split; assumption]].
  apply (Hdup 1%nat (sampleJob "M31" FINISH_SEQUENCE 1 0 SCHEDJOB_COMPLETE SCHEDSTAGE_IDLE));
    [reflexivity | discriminate | reflexivity].
Defined.

(** * Selection among aborted jobs *)

Lemma forallb_finished_or_aborted js :
  Forall (fun j => state j = SCHEDJOB_ABORTED ∨ state j = SCHEDJOB_ERROR) js ->
  forallb finished_or_aborted js = true.
Proof.
  induction 1 as [|j js [Hj|Hj] _ IH]; simpl; [reflexivity| |];
    rewrite IH; unfold finished_or_aborted; rewrite Hj; reflexivity.
Qed.

Lemma forallb_neither_scheduled_nor_aborted js :
  Forall (fun j => state j = SCHEDJOB_ABORTED ∨ state j = SCHEDJOB_ERROR) js ->
  forallb neither_scheduled_nor_aborted js
  = bool_decide (Forall (fun j => state j ≠ SCHEDJOB_ABORTED) js).
Proof.
  induction 1 as [|j js [Hj|Hj] _ IH]; cbn [forallb].
  - symmetry. apply bool_decide_eq_true_2. constructor.
  - unfold neither_scheduled_nor_aborted at 1. rewrite Hj. cbn [negb andb bool_decide decide_rel].
    symmetry. apply bool_decide_eq_false_2. intros H. inversion H; subst. congruence.
  - rewrite IH. unfold neither_scheduled_nor_aborted. rewrite Hj.
    change (negb (bool_decide (SCHEDJOB_ERROR = SCHEDJOB_SCHEDULED))
            && negb (bool_decide (SCHEDJOB_ERROR = SCHEDJOB_ABORTED))) with true.
    cbn [andb].
    apply bool_decide_ext. split.
    + intros H. constructor; [congruence | exact H].
    + intros H. inversion H; subst. assumption.
Qed.

(** C5, as stated, fails: with one aborted job and the strategy "don't restart",
    [selectActiveJob] logs "No jobs scheduled." and not its "no jobs left"
    message. *)
Lemma selectActiveJob_aborted_dont_restart :
  ¬ logsNoJobsLeft abortedScheduler.
Proof.
  intros H. destruct H as (s' & Hrun & _ & Hlog).
  - split; [discriminate|]. repeat constructor.
  - reflexivity.
  - vm_compute in Hrun. injection Hrun as <-. simpl in Hlog.
    apply list_elem_of_singleton in Hlog. discriminate.
Qed.

(** C5 (amended).  When every job of a non-empty job list is aborted or in
    error, [selectActiveJob] returns, and
    - if no job is aborted, whatever the strategy, the active job is set to null
      and "No jobs left in the scheduler queue after evaluating." is logged;
    - if a job is aborted and the strategy permits a restart, every aborted job
      is set to [SCHEDJOB_EVALUATION], the other jobs and the active job are
      left as they are, and the requeueing is logged;
    - if a job is aborted and the strategy is "don't restart", the jobs are left
      as they are and the active job becomes the job the greedy scheduler has
      scheduled; when there is none, the active job is null and
      "No jobs scheduled." is logged. *)
Theorem selectActiveJob_all_aborted_or_errored s :
  allAbortedOrErrored (jobs s) ->
  ∃ s', selectActiveJob s = Some (tt, s')
    ∧ (Forall (fun j => state j ≠ SCHEDJOB_ABORTED) (jobs s) ->
         jobs s' = jobs s ∧ activeJob s' = None
         ∧ trace s' = trace s ++ [Log "No jobs left in the scheduler queue after evaluating."])
    ∧ (Exists (fun j => state j = SCHEDJOB_ABORTED) (jobs s) ->
       errorHandlingDontRestart (cfg s) = false ->
         jobs s' = requeued <$> jobs s ∧ activeJob s' = activeJob s
         ∧ trace s' = trace s ++ [Log "Only aborted jobs left in the scheduler queue after evaluating, rescheduling those."])
    ∧ (Exists (fun j => state j = SCHEDJOB_ABORTED) (jobs s) ->
       errorHandlingDontRestart (cfg s) = true ->
         jobs s' = jobs s ∧ activeJob s' = scheduledJob s
         ∧ trace s' = trace s ++ match scheduledJob s with
                                 | Some _ => []
                                 | None => [Log "No jobs scheduled."]
                                 end).
Proof.
  intros [Hne Hall].
  unfold selectActiveJob. repeat mstep.
  rewrite (bool_decide_eq_false_2 _ Hne). simpl.
  rewrite (forallb_neither_scheduled_nor_aborted _ Hall), (forallb_finished_or_aborted _ Hall).
  simpl. case_bool_decide as Hab.
  - repeat mstep. rewrite setActiveJob_run.
    eexists. split; [reflexivity|]. simpl.
    split; [auto|]. split; intros Hex; exfalso;
      apply Exists_exists in Hex as (j & Hin & Hj);
      rewrite Forall_forall in Hab; exact (Hab j Hin Hj).
  - destruct (errorHandlingDontRestart (cfg s)) eqn:Hdont; simpl.
    + repeat mstep. destruct (scheduledJob s) as [k|] eqn:Hsched.
      * rewrite setActiveJob_run. eexists. split; [reflexivity|]. simpl.
        split; [intros; contradiction|]. split; [discriminate|].
        intros _ _. rewrite app_nil_r. auto.
      * repeat mstep. rewrite setActiveJob_run. eexists. split; [reflexivity|]. simpl.
        split; [intros; contradiction|]. split; [discriminate|]. auto.
    + repeat mstep. eexists. split; [reflexivity|]. simpl.
      split; [intros; contradiction|]. split; [|discriminate].
      intros _ _. split; [|auto]. apply (imap_const requeued).
Qed.

Lemma selectActiveJob_all_aborted_or_errored_witness :
  allAbortedOrErrored (jobs abortedScheduler)
  ∧ ∃ s', selectActiveJob abortedScheduler = Some (tt, s')
      ∧ (Forall (fun j => state j ≠ SCHEDJOB_ABORTED) (jobs abortedScheduler) ->
           jobs s' = jobs abortedScheduler ∧ activeJob s' = None
           ∧ trace s' = trace abortedScheduler
                        ++ [Log "No jobs left in the scheduler queue after evaluating."])
      ∧ (Exists (fun j => state j = SCHEDJOB_ABORTED) (jobs abortedScheduler) ->
         errorHandlingDontRestart (cfg abortedScheduler) = false ->
           jobs s' = requeued <$> jobs abortedScheduler
           ∧ activeJob s' = activeJob abortedScheduler
           ∧ trace s' = trace abortedScheduler
                        ++ [Log "Only aborted jobs left in the scheduler queue after evaluating, rescheduling those."])
      ∧ (Exists (fun j => state j = SCHEDJOB_ABORTED) (jobs abortedScheduler) ->
         errorHandlingDontRestart (cfg abortedScheduler) = true ->
           jobs s' = jobs abortedScheduler ∧ activeJob s' = scheduledJob abortedScheduler
           ∧ trace s' = trace abortedScheduler
                        ++ match scheduledJob abortedScheduler with
                           | Some _ => []
                           | None => [Log "No jobs scheduled."]
                           end).
Proof.
  assert (H : allAbortedOrErrored (jobs abortedScheduler)).
  { split; [discriminate|]. repeat constructor. }
  split; [exact H|].
  apply (selectActiveJob_all_aborted_or_errored abortedScheduler H).
Defined.

(** * Leaving the idle stage *)

(** C6, as stated, fails: with focus and align enabled and autofocus completed,
    the first enabled step is focusing, and [getNextAction] starts alignment. *)
Lemma getNextAction_skips_completed_focus :
  ¬ startsFirstEnabledStep (sampleEnv false 0 CAPTURE_IDLE) focusedScheduler.
Proof.
  intros H.
  destruct (H 0%nat
              (sampleJob "M31" FINISH_SEQUENCE 1 (USE_FOCUS + USE_ALIGN)
                 SCHEDJOB_BUSY SCHEDSTAGE_IDLE))
    as (s' & evs & Hrun & Htrace & Hcmd); [split; reflexivity | reflexivity | reflexivity |].
  vm_compute in Hrun. injection Hrun as <-.
  simpl in Htrace. subst evs. vm_compute in Hcmd. discriminate.
Qed.

(** C6 (amended).  When the stage of the active job is idle and the job requires
    light frames, [getNextAction] starts the first step, in the order TRACK,
    FOCUS, ALIGN, GUIDE, CAPTURE, that is to be taken: a step is skipped when it
    is disabled, and the focus step also when autofocus has already completed;
    a guide step that finds guiding running goes straight to capture.  Nothing
    else is started. *)
Theorem getNextAction_from_idle env s i j :
  activeJobIs s i j ->
  stage j = SCHEDSTAGE_IDLE ->
  lightFramesRequired j = true ->
  ∃ s' evs, getNextAction env s = Some (tt, s')
    ∧ trace s' = trace s ++ evs
    ∧ List.filter isStartCommand evs
      = [startOf (guidingStatus env) (firstStep (stepPipeline j) (autofocusCompleted s))].
Proof.
  intros [Ha Hj] Hstage Hlight.
  unfold getNextAction. repeat mstep. mcall theActiveJob_run. repeat mstep.
  rewrite Hstage, Hlight. unfold firstStep, pipelineOrder, startOf, stepDue.
  destruct (uses (stepPipeline j) USE_TRACK), (uses (stepPipeline j) USE_FOCUS),
    (autofocusCompleted s), (uses (stepPipeline j) USE_ALIGN),
    (uses (stepPipeline j) USE_GUIDE),
    (bool_decide (guidingStatus env = GUIDE_GUIDING));
    simpl; repeat mstep;
    (eexists; eexists; split; [reflexivity|]; simpl;
     split; [rewrite <- ?app_assoc; reflexivity|]; simpl; auto).
Qed.

Lemma getNextAction_from_idle_witness :
  activeJobIs focusedScheduler 0
    (sampleJob "M31" FINISH_SEQUENCE 1 (USE_FOCUS + USE_ALIGN) SCHEDJOB_BUSY SCHEDSTAGE_IDLE)
  ∧ ∃ s' evs, getNextAction (sampleEnv false 0 CAPTURE_IDLE) focusedScheduler = Some (tt, s')
      ∧ trace s' = trace focusedScheduler ++ evs
      ∧ List.filter isStartCommand evs = [StartAstrometry].
Proof.
  split; [split; reflexivity|].
  apply (getNextAction_from_idle (sampleEnv false 0 CAPTURE_IDLE) focusedScheduler 0
           (sampleJob "M31" FINISH_SEQUENCE 1 (USE_FOCUS + USE_ALIGN)
              SCHEDJOB_BUSY SCHEDSTAGE_IDLE));
    [split; reflexivity | reflexivity | reflexivity].
Defined.

(** * Failure counters *)

Section Keeps.
Context {A B : Type}.

Lemma keeps_ret (a : A) : keepsFailureCounts (ret a).
Proof. intros s a' s' [= _ <-]. reflexivity. Qed.

Lemma keeps_gets (f : Scheduler -> A) : keepsFailureCounts (gets f).
Proof. intros s a' s' [= _ <-]. reflexivity. Qed.

Lemma keeps_nullDeref : keepsFailureCounts (@nullDeref A).
Proof. intros s a' s' [=]. Qed.

Lemma keeps_bind (m : Sch A) (k : A -> Sch B) :
  keepsFailureCounts m -> (∀ a, keepsFailureCounts (k a)) -> keepsFailureCounts (bind m k).
Proof.
  intros Hm Hk s b s'. unfold bind.
  destruct (m s) as [[a s1]|] eqn:E; [|discriminate].
  intros H. rewrite (Hk _ _ _ _ H). eapply Hm, E.
Qed.
End Keeps.

Lemma keeps_modify f :
  (∀ s, failureCounts (f s) = failureCounts s) -> keepsFailureCounts (modify f).
Proof. intros Hf s a s' [= _ <-]. apply Hf. Qed.

Lemma keeps_emit e : keepsFailureCounts (emit e).
Proof. apply keeps_modify. reflexivity. Qed.

Lemma keeps_when b (m : Sch unit) : keepsFailureCounts m -> keepsFailureCounts (when b m).
Proof. destruct b; [done|]. intros _. apply keeps_ret. Qed.

Lemma keeps_deref i : keepsFailureCounts (deref i).
Proof. intros s a s'. unfold deref. destruct (jobs s !! i); intros [= _ <-]. reflexivity. Qed.

Create HintDb keeps.

(** Statement by statement: sequences, branches, and calls whose behaviour is on
    record in the hint database. *)
Ltac keeps :=
  repeat first
    [ progress intros
    | apply keeps_ret | apply keeps_gets | apply keeps_nullDeref | apply keeps_deref
    | apply keeps_emit | apply keeps_when
    | apply keeps_modify; reflexivity
    | apply keeps_bind
    | solve [auto with keeps]
    | match goal with
      | |- keepsFailureCounts (if ?b then _ else _) => destruct b
      | |- keepsFailureCounts (match ?x with _ => _ end) => destruct x
      end ].

Lemma keeps_theActiveJob : keepsFailureCounts theActiveJob.
Proof. unfold theActiveJob. keeps. Qed.
#[local] Hint Resolve keeps_theActiveJob : keeps.

Lemma keeps_updateJob i f : keepsFailureCounts (updateJob i f).
Proof. unfold updateJob. keeps. Qed.
#[local] Hint Resolve keeps_updateJob : keeps.

Lemma keeps_updateActiveJob f : keepsFailureCounts (updateActiveJob f).
Proof. unfold updateActiveJob. keeps. Qed.
#[local] Hint Resolve keeps_updateActiveJob : keeps.

Lemma keeps_forEachJob f : keepsFailureCounts (forEachJob f).
Proof. unfold forEachJob. keeps. Qed.
#[local] Hint Resolve keeps_forEachJob : keeps.

Lemma keeps_setActiveJob job : keepsFailureCounts (setActiveJob job).
Proof. unfold setActiveJob. keeps. Qed.
#[local] Hint Resolve keeps_setActiveJob : keeps.

Lemma keeps_setupNextIterationIn st ms : keepsFailureCounts (setupNextIterationIn st ms).
Proof. unfold setupNextIterationIn. keeps. Qed.
#[local] Hint Resolve keeps_setupNextIterationIn : keeps.

Lemma keeps_setupNextIteration st : keepsFailureCounts (setupNextIteration st).
Proof. unfold setupNextIteration. keeps. Qed.
#[local] Hint Resolve keeps_setupNextIteration : keeps.

Lemma keeps_updateJobStage st : keepsFailureCounts (updateJobStage st).
Proof. unfold updateJobStage. keeps. Qed.
#[local] Hint Resolve keeps_updateJobStage : keeps.

Lemma keeps_stopCurrentJobAction : keepsFailureCounts stopCurrentJobAction.
Proof. unfold stopCurrentJobAction, qCDebug. keeps. Qed.
#[local] Hint Resolve keeps_stopCurrentJobAction : keeps.

Lemma keeps_ask env c : keepsFailureCounts (ask env c).
Proof. unfold ask. keeps. Qed.
#[local] Hint Resolve keeps_ask : keeps.

Lemma keeps_checkShutdownState env : keepsFailureCounts (checkShutdownState env).
Proof. unfold checkShutdownState, qCDebug. keeps. Qed.
#[local] Hint Resolve keeps_checkShutdownState : keeps.

Lemma keeps_shouldSchedulerSleep env job : keepsFailureCounts (shouldSchedulerSleep env job).
Proof. unfold shouldSchedulerSleep, appendLogText. keeps. Qed.
#[local] Hint Resolve keeps_shouldSchedulerSleep : keeps.

Lemma keeps_executeJob env job : keepsFailureCounts (executeJob env job).
Proof. unfold executeJob, qCDebug. keeps. Qed.
#[local] Hint Resolve keeps_executeJob : keeps.

Lemma keeps_countCompletedJobs env ks : keepsFailureCounts (countCompletedJobs env ks).
Proof. induction ks as [|k ks IH]; simpl; unfold appendLogText; keeps. Qed.
#[local] Hint Resolve keeps_countCompletedJobs : keeps.

Lemma keeps_updateCompletedJobsCount env forced :
  keepsFailureCounts (updateCompletedJobsCount env forced).
Proof. unfold updateCompletedJobsCount, qCDebug. keeps. Qed.
#[local] Hint Resolve keeps_updateCompletedJobsCount : keeps.

Lemma keeps_selectActiveJob : keepsFailureCounts selectActiveJob.
Proof. unfold selectActiveJob, appendLogText. keeps. Qed.
#[local] Hint Resolve keeps_selectActiveJob : keeps.

Lemma keeps_evaluateJobs env evaluateOnly : keepsFailureCounts (evaluateJobs env evaluateOnly).
Proof. unfold evaluateJobs, qCDebug. keeps. Qed.
#[local] Hint Resolve keeps_evaluateJobs : keeps.

Lemma keeps_markDuplicatesIdle : keepsFailureCounts markDuplicatesIdle.
Proof. unfold markDuplicatesIdle. keeps. Qed.
#[local] Hint Resolve keeps_markDuplicatesIdle : keeps.

Lemma findNextJob_keeps_reset env s :
  schedulerState s ≠ SCHEDULER_PAUSED -> resetsFailureCounters env s.
Proof.
  intros Hp s'. unfold exec, findNextJob. mstep.
  rewrite (bool_decide_eq_false_2 _ Hp).
  unfold resetAlignFailureCount, resetGuideFailureCount, resetFocusFailureCount,
    resetCaptureFailureCount.
  repeat mstep.
  match goal with
  | |- match ?m ?s0 with _ => _ end = _ -> _ =>
      destruct (m s0) as [[[] s1]|] eqn:E; [|discriminate];
      intros [= <-]; assert (K : keepsFailureCounts m)
  end.
  { unfold resetCaptureBatch, increaseCaptureBatch, appendLogText, qCDebug. keeps. }
  rewrite (K _ _ _ E). reflexivity.
Qed.

Lemma findNextJob_paused env s :
  schedulerState s = SCHEDULER_PAUSED -> findNextJob env s = setPaused s.
Proof.
  intros Hp. unfold findNextJob. rewrite run_gets, Hp. reflexivity.
Qed.

(** C9 (amended).  On a scheduler that is not paused, [findNextJob] resets the
    four failure counters before it looks at the job, and nothing it does
    afterwards touches them: when it returns, all four are zero, and with a
    valid active job it does return.  On a paused scheduler it does what
    [setPaused] does and returns with the counters as they were. *)
Theorem findNextJob_resets_failure_counters env s :
  (schedulerState s ≠ SCHEDULER_PAUSED ->
   resetsFailureCounters env s
   ∧ ∀ i, activeJob s = Some i -> (i < length (jobs s))%nat ->
          ∃ s', exec (findNextJob env) s = Some s')
  ∧ (schedulerState s = SCHEDULER_PAUSED ->
     findNextJob env s = setPaused s
     ∧ ∃ s', exec (findNextJob env) s = Some s'
             ∧ failureCounts s' = failureCounts s).
Proof.
  split.
  - intros Hp. split; [apply findNextJob_keeps_reset, Hp|].
    intros i Ha Hi.
    destruct (findNextJob_returns env i (length (jobs s)) s) as ([] & s' & E & _).
    { repeat split; [exact Ha | exact Hi]. }
    exists s'. apply (exec_run _ _ _ _ E).
  - intros Hp. split; [apply findNextJob_paused, Hp|].
    unfold exec. rewrite (findNextJob_paused env s Hp).
    unfold setPaused. rewrite (run_bind _ _ _ _ _ (setupNextIteration_run _ _)), end_log.
    eexists. split; reflexivity.
Qed.

(** C9, as stated, fails: on a paused scheduler [findNextJob] returns at once,
    and the capture failure counter keeps its value. *)
Lemma findNextJob_paused_keeps_failure_counters :
  ¬ resetsFailureCounters (sampleEnv false 0 CAPTURE_COMPLETE) pausedScheduler.
Proof.
  intros H. specialize (H _ eq_refl). vm_compute in H. discriminate.
Qed.

Lemma findNextJob_resets_failure_counters_witness :
  (schedulerState (capturingScheduler FINISH_SEQUENCE 1 2) ≠ SCHEDULER_PAUSED
   ∧ failureCounts (capturingScheduler FINISH_SEQUENCE 1 2) = (0, 0, 0, 2)
   ∧ ∃ s', exec (findNextJob (sampleEnv false 0 CAPTURE_COMPLETE))
             (capturingScheduler FINISH_SEQUENCE 1 2) = Some s'
       ∧ failureCounts s' = (0, 0, 0, 0))
  ∧ (schedulerState pausedScheduler = SCHEDULER_PAUSED
     ∧ ∃ s', exec (findNextJob (sampleEnv false 0 CAPTURE_COMPLETE)) pausedScheduler = Some s'
             ∧ failureCounts s' = failureCounts pausedScheduler).
Proof.
  split.
  - split; [discriminate|]. split; [reflexivity|].
    destruct (findNextJob_resets_failure_counters (sampleEnv false 0 CAPTURE_COMPLETE)
                (capturingScheduler FINISH_SEQUENCE 1 2)) as [Hrunning _].
    destruct Hrunning as [Hreset Hreturns]; [discriminate|].
    destruct (Hreturns 0%nat eq_refl) as [s' Hrun]; [simpl; lia|].
    exists s'. split; [exact Hrun | exact (Hreset s' Hrun)].
  - split; [reflexivity|].
    destruct (findNextJob_resets_failure_counters (sampleEnv false 0 CAPTURE_COMPLETE)
                pausedScheduler) as [_ Hpaused].
    destruct Hpaused as [_ Hkept]; [reflexivity|]. exact Hkept.
Defined.

